(** * Chat-Tinker GUI: a shallow embedding of [gui.py]

    The program is a flet widget tree with click handlers.  Every handler
    mutates attributes of Python objects and, for [on_delete] and [on_send],
    the list [msg_hist.controls] that all message entries share through their
    [me_parent] back-reference.  The embedding keeps that shape: message
    entries live in an object store indexed by references, the message
    history is a list of references, and the handlers are written in a small
    state-and-exception monad, one line per source statement. *)

From stdpp Require Import base option list gmap strings.

Open Scope string_scope.
Open Scope list_scope.

(** ** The flet library *)

(** Modelled from the spec: the flet library is not part of the repository,
    only its constructor defaults are needed here.  A control is visible
    unless [visible=False] is passed (spec, section 6: of the per-message
    controls only Save and Cancel are "hidden unless editing"), a text field
    is enabled unless [disabled=True] is passed, and a text field without
    [value=...] holds the empty string. *)
Module ft.
Definition default_visible : bool := true.
Definition default_disabled : bool := false.
Definition default_value : string := "".
End ft.

(** Object identity.  Python compares controls by identity ([ft.Control]
    defines no [__eq__]), so a reference stands for the object. *)
Abbreviation ref := nat.

(** The bound methods that are installed as [on_click] callbacks. *)
Inductive Handler : Type :=
  | on_edit_of (self : ref)
  | on_save_of (self : ref)
  | on_cancel_of (self : ref)
  | on_delete_of (self : ref)
  | on_send_of.

(** [ft.TextField], with the attributes the program passes or assigns. *)
Record TextField : Type := mkTextField {
  label : string;
  value : string;
  multiline : bool;
  disabled : bool;
  expand : bool
}.

(** [ft.ElevatedButton]. *)
Record ElevatedButton : Type := mkElevatedButton {
  text : string;
  on_click : Handler;
  visible : bool
}.

(** The only [ft.Column] that is ever passed as [parent] is the page's
    [msg_hist] (lines 135, 144, 183 and 194). *)
Inductive Column : Type := msg_hist_column.

(** The widgets that can take the keyboard focus. *)
Inductive Focus : Type :=
  | focus_text_box (self : ref)
  | focus_input_box.

(** [class MessageEntry(ft.Row)]: the attributes set by [__init__]. *)
Record MessageEntry : Type := mkMessageEntry {
  author : string;
  saved_content : string;
  me_parent : Column;
  text_box : TextField;
  edit_button : ElevatedButton;
  save_button : ElevatedButton;
  cancel_button : ElevatedButton;
  delete_button : ElevatedButton
}.

(** The children of the row, [self.controls]: the five widgets above, in the
    order of lines 48-54. *)
Inductive Control : Type :=
  | CTextField (t : TextField)
  | CButton (b : ElevatedButton).

Definition controls (e : MessageEntry) : list Control :=
  [ CTextField (text_box e);
    CButton (edit_button e);
    CButton (save_button e);
    CButton (cancel_button e);
    CButton (delete_button e) ].

(** Attribute assignment on the widgets. *)
Definition set_value (v : string) (t : TextField) : TextField :=
  {| label := label t; value := v; multiline := multiline t;
     disabled := disabled t; expand := expand t |}.

Definition set_disabled (b : bool) (t : TextField) : TextField :=
  {| label := label t; value := value t; multiline := multiline t;
     disabled := b; expand := expand t |}.

Definition set_visible (b : bool) (w : ElevatedButton) : ElevatedButton :=
  {| text := text w; on_click := on_click w; visible := b |}.

(** Attribute assignment on a message entry. *)
Definition with_saved_content (v : string) (e : MessageEntry) : MessageEntry :=
  {| author := author e; saved_content := v; me_parent := me_parent e;
     text_box := text_box e; edit_button := edit_button e;
     save_button := save_button e; cancel_button := cancel_button e;
     delete_button := delete_button e |}.

Definition with_text_box (f : TextField → TextField) (e : MessageEntry)
  : MessageEntry :=
  {| author := author e; saved_content := saved_content e;
     me_parent := me_parent e;
     text_box := f (text_box e); edit_button := edit_button e;
     save_button := save_button e; cancel_button := cancel_button e;
     delete_button := delete_button e |}.

Definition with_edit_button (f : ElevatedButton → ElevatedButton)
  (e : MessageEntry) : MessageEntry :=
  {| author := author e; saved_content := saved_content e;
     me_parent := me_parent e;
     text_box := text_box e; edit_button := f (edit_button e);
     save_button := save_button e; cancel_button := cancel_button e;
     delete_button := delete_button e |}.

Definition with_save_button (f : ElevatedButton → ElevatedButton)
  (e : MessageEntry) : MessageEntry :=
  {| author := author e; saved_content := saved_content e;
     me_parent := me_parent e;
     text_box := text_box e; edit_button := edit_button e;
     save_button := f (save_button e); cancel_button := cancel_button e;
     delete_button := delete_button e |}.

Definition with_cancel_button (f : ElevatedButton → ElevatedButton)
  (e : MessageEntry) : MessageEntry :=
  {| author := author e; saved_content := saved_content e;
     me_parent := me_parent e;
     text_box := text_box e; edit_button := edit_button e;
     save_button := save_button e; cancel_button := f (cancel_button e);
     delete_button := delete_button e |}.

Definition with_delete_button (f : ElevatedButton → ElevatedButton)
  (e : MessageEntry) : MessageEntry :=
  {| author := author e; saved_content := saved_content e;
     me_parent := me_parent e;
     text_box := text_box e; edit_button := edit_button e;
     save_button := save_button e; cancel_button := cancel_button e;
     delete_button := f (delete_button e) |}.

(** ** The application state *)

(** The live objects of a running page: the store of message entries, the
    children of [msg_hist] (a Python list of object references), and the two
    widgets of the input row.  [focused] records the last [focus()] call. *)
Record App : Type := mkApp {
  store : gmap nat MessageEntry;
  msg_hist : list nat;
  input_box : TextField;
  send_button : ElevatedButton;
  focused : option Focus
}.

Definition with_store (f : gmap nat MessageEntry → gmap nat MessageEntry)
  (σ : App) : App :=
  {| store := f (store σ); msg_hist := msg_hist σ; input_box := input_box σ;
     send_button := send_button σ; focused := focused σ |}.

Definition with_msg_hist (f : list nat → list nat) (σ : App) : App :=
  {| store := store σ; msg_hist := f (msg_hist σ); input_box := input_box σ;
     send_button := send_button σ; focused := focused σ |}.

Definition with_input_box (f : TextField → TextField) (σ : App) : App :=
  {| store := store σ; msg_hist := msg_hist σ; input_box := f (input_box σ);
     send_button := send_button σ; focused := focused σ |}.

Definition with_focused (w : Focus) (σ : App) : App :=
  {| store := store σ; msg_hist := msg_hist σ; input_box := input_box σ;
     send_button := send_button σ; focused := Some w |}.

(** ** Exceptions and the handler monad *)

(** [ValueError] is what [list.remove] raises when the element is absent.
    [DanglingReference] has no Python counterpart: it marks the use of a
    reference that was never allocated, which the store invariant excludes. *)
Inductive Exception : Type :=
  | ValueError
  | DanglingReference.

Inductive result (A : Type) : Type :=
  | Ok (a : A)
  | Raise (e : Exception).
Arguments Ok {A} a.
Arguments Raise {A} e.

Instance result_fmap : FMap result := λ A B (f : A → B) (x : result A),
  match x with
  | Ok a => Ok (f a)
  | Raise e => Raise e
  end.

Definition M (A : Type) : Type := App → result (A * App).

Instance M_ret : MRet M := λ A (a : A) σ, Ok (a, σ).

Instance M_bind : MBind M := λ A B (k : A → M B) (m : M A) σ,
  match m σ with
  | Ok (a, σ') => k a σ'
  | Raise e => Raise e
  end.

Definition raise {A} (e : Exception) : M A := λ _, Raise e.

Definition get : M App := λ σ, Ok (σ, σ).
Definition modify (f : App → App) : M unit := λ σ, Ok (tt, f σ).

(** Running a handler for its effect on the state. *)
Definition exec {A} (m : M A) (σ : App) : result App :=
  match m σ with
  | Ok (_, σ') => Ok σ'
  | Raise e => Raise e
  end.

(** ** Store primitives *)

(** Object allocation: a reference that no live object has. *)
Definition alloc (e : ref → MessageEntry) : M ref := λ σ,
  let r := fresh (dom (store σ)) in
  Ok (r, with_store (insert r (e r)) σ).

(** Reading and writing the attributes of [self]. *)
Definition read (self : ref) : M MessageEntry := λ σ,
  match store σ !! self with
  | Some e => Ok (e, σ)
  | None => Raise DanglingReference
  end.

Definition assign (self : ref) (f : MessageEntry → MessageEntry) : M unit :=
  e ← read self;
  modify (with_store (insert self (f e))).

(** [widget.focus()] and [control.update()].  [update] pushes the pending
    attribute changes of a control that is on the page to the client and
    leaves the Python objects alone.  flet refuses both calls, with an
    [AssertionError], on a control that is not on the page; that is not
    modelled.  The page, [msg_hist] and the input row are on the page from
    load on, and a message entry is on it exactly while it is a child of
    [msg_hist]: [on_send] and [on_delete] end with the [update()] that puts
    it there or takes it off.  So [on_edit], [on_save] and [on_cancel] below
    are those of the source for the rows of [msg_hist] on a reachable page,
    and this is the domain in which the theorems say that they return. *)
Definition focus (w : Focus) : M unit := modify (with_focused w).
Definition update : M unit := mret tt.

(** [list.append] and [list.remove] on [msg_hist.controls].  [remove] drops
    the first occurrence and raises [ValueError] when there is none. *)
Fixpoint list_remove (x : ref) (l : list ref) : option (list ref) :=
  match l with
  | [] => None
  | y :: l' =>
      if decide (y = x) then Some l'
      else cons y <$> list_remove x l'
  end.

Definition msg_hist_append (r : ref) : M unit :=
  modify (with_msg_hist (λ l, l ++ [r])).

Definition msg_hist_remove (r : ref) : M unit :=
  σ ← get;
  match list_remove r (msg_hist σ) with
  | Some l => modify (with_msg_hist (λ _, l))
  | None => raise ValueError
  end.

(** ** [class MessageEntry] *)

(** [MessageEntry.__init__] (lines 13-54): the attributes of the new object
    [self].  [str] values are immutable, so sharing [message] between
    [saved_content] and [text_box.value] is not observable. *)
Definition MessageEntry_init (author message : string) (parent : Column)
  (self : ref) : MessageEntry :=
  {| author := author;
     saved_content := message;
     me_parent := parent;
     text_box :=
       {| label := author; value := message; multiline := true;
          disabled := true; expand := true |};
     edit_button :=
       {| text := "Edit"; on_click := on_edit_of self;
          visible := ft.default_visible |};
     save_button :=
       {| text := "Save"; on_click := on_save_of self; visible := false |};
     cancel_button :=
       {| text := "Cancel"; on_click := on_cancel_of self; visible := false |};
     delete_button :=
       {| text := "Delete"; on_click := on_delete_of self;
          visible := ft.default_visible |} |}.

(** The constructor call [MessageEntry(author=..., message=..., parent=...)]. *)
Definition new_MessageEntry (author message : string) (parent : Column)
  : M ref :=
  alloc (MessageEntry_init author message parent).

(** [MessageEntry.on_edit] (lines 56-70). *)
Definition on_edit (self : ref) : M unit :=
  assign self (with_edit_button (set_visible false));;
  assign self (with_save_button (set_visible true));;
  assign self (with_cancel_button (set_visible true));;
  assign self (with_delete_button (set_visible false));;
  assign self (with_text_box (set_disabled false));;
  focus (focus_text_box self);;
  update.

(** [MessageEntry.on_save] (lines 72-86). *)
Definition on_save (self : ref) : M unit :=
  e ← read self;
  assign self (with_saved_content (value (text_box e)));;
  assign self (with_edit_button (set_visible true));;
  assign self (with_save_button (set_visible false));;
  assign self (with_cancel_button (set_visible false));;
  assign self (with_delete_button (set_visible true));;
  assign self (with_text_box (set_disabled true));;
  update.

(** [MessageEntry.on_cancel] (lines 88-102). *)
Definition on_cancel (self : ref) : M unit :=
  e ← read self;
  assign self (with_text_box (set_value (saved_content e)));;
  assign self (with_edit_button (set_visible true));;
  assign self (with_save_button (set_visible false));;
  assign self (with_cancel_button (set_visible false));;
  assign self (with_delete_button (set_visible true));;
  assign self (with_text_box (set_disabled true));;
  update.

(** [MessageEntry.on_delete] (lines 104-111):
    [self.me_parent.controls.remove(self)] then [self.me_parent.update()]. *)
Definition on_delete (self : ref) : M unit :=
  e ← read self;
  match me_parent e with
  | msg_hist_column => msg_hist_remove self
  end;;
  update.

(** ** [class STMainPage] *)

(** Python's [str(x)] on a value that already is a [str]. *)
Definition str (s : string) : string := s.

(** The state in which [STMainPage.__init__] starts filling the history:
    no message entry exists, [msg_hist = ft.Column()] has no children, and
    the input row holds [ft.TextField(label="You", expand=True,
    multiline=True)] and [ft.ElevatedButton(text="Send", on_click=on_send)]
    (lines 128 and 149-152; the two constructions do not depend on the
    appends between them). *)
Definition blank : App :=
  {| store := ∅;
     msg_hist := [];
     input_box :=
       {| label := "You"; value := ft.default_value; multiline := true;
          disabled := ft.default_disabled; expand := true |};
     send_button :=
       {| text := "Send"; on_click := on_send_of;
          visible := ft.default_visible |};
     focused := None |}.

(** [STMainPage.__init__] (lines 121-168): the two seeded messages. *)
Definition STMainPage_init : M unit :=
  welcome ← new_MessageEntry "Setting" "Welcome to the Chat-Tinker GUI!"
              msg_hist_column;
  msg_hist_append welcome;;
  hint ← new_MessageEntry "AI" "Type 'exit' to exit the application."
           msg_hist_column;
  msg_hist_append hint.

(** The page right after load, spelled out ([STMainPage_init_ok] below). *)
Definition loaded : App :=
  {| store :=
       <[1 := MessageEntry_init "AI" "Type 'exit' to exit the application."
                msg_hist_column 1]>
       (<[0 := MessageEntry_init "Setting" "Welcome to the Chat-Tinker GUI!"
                 msg_hist_column 0]> ∅);
     msg_hist := [0; 1];
     input_box := input_box blank;
     send_button := send_button blank;
     focused := None |}.

(** [STMainPage.on_send] (lines 170-200). *)
Definition on_send : M unit :=
  σ ← get;
  you ← new_MessageEntry "You" (str (value (input_box σ))) msg_hist_column;
  msg_hist_append you;;
  modify (with_input_box (set_value ""));;
  response_box ← new_MessageEntry "AI" "Processing..." msg_hist_column;
  msg_hist_append response_box;;
  update;;
  focus focus_input_box.

(** ** The user *)

(** What flet does on a click: it calls the button's [on_click]. *)
Definition call (h : Handler) : M unit :=
  match h with
  | on_edit_of self => on_edit self
  | on_save_of self => on_save self
  | on_cancel_of self => on_cancel self
  | on_delete_of self => on_delete self
  | on_send_of => on_send
  end.

(** Typing replaces the [value] of the text field that is typed into. *)
Definition type_input_box (s : string) : M unit :=
  modify (with_input_box (set_value s)).

Definition type_text_box (self : ref) (s : string) : M unit :=
  assign self (with_text_box (set_value s)).

Inductive Action : Type :=
  | TypeInput (s : string)
  | ClickSend
  | TypeMessage (r : ref) (s : string)
  | ClickEdit (r : ref)
  | ClickSave (r : ref)
  | ClickCancel (r : ref)
  | ClickDelete (r : ref).

Definition perform (a : Action) : M unit :=
  match a with
  | TypeInput s => type_input_box s
  | ClickSend => σ ← get; call (on_click (send_button σ))
  | TypeMessage r s => type_text_box r s
  | ClickEdit r => e ← read r; call (on_click (edit_button e))
  | ClickSave r => e ← read r; call (on_click (save_button e))
  | ClickCancel r => e ← read r; call (on_click (cancel_button e))
  | ClickDelete r => e ← read r; call (on_click (delete_button e))
  end.

(** The message entry an action is aimed at, if any. *)
Definition target (a : Action) : option ref :=
  match a with
  | TypeInput _ | ClickSend => None
  | TypeMessage r _ | ClickEdit r | ClickSave r | ClickCancel r
  | ClickDelete r => Some r
  end.

(** Only the rows that [msg_hist] shows can be typed into or clicked.  The
    real page is stricter (a hidden button cannot be clicked, a disabled
    text field cannot be typed into); every user session of the real page
    is therefore a session here. *)
Definition on_screen (σ : App) (a : Action) : Prop :=
  match target a with
  | Some r => r ∈ msg_hist σ
  | None => True
  end.

(** Page load followed by any number of user actions. *)
Inductive reachable : App → Prop :=
  | reachable_load σ :
      exec STMainPage_init blank = Ok σ → reachable σ
  | reachable_step σ a σ' :
      reachable σ → on_screen σ a → exec (perform a) σ = Ok σ' →
      reachable σ'.

(** Any amount of typing into the text box of [self]: one [value] after
    another. *)
Fixpoint keystrokes (self : ref) (vs : list string) : M unit :=
  match vs with
  | [] => mret tt
  | v :: vs' => type_text_box self v;; keystrokes self vs'
  end.

(** Handlers called one after another, stopping at the first exception. *)
Fixpoint calls (hs : list Handler) : M unit :=
  match hs with
  | [] => mret tt
  | h :: hs' => call h;; calls hs'
  end.

(** The object a bound method is bound to. *)
Definition self_of (h : Handler) : option ref :=
  match h with
  | on_edit_of self | on_save_of self | on_cancel_of self
  | on_delete_of self => Some self
  | on_send_of => None
  end.

(** ** What the page shows *)

(** The rows of the history, top to bottom. *)
Definition rows (σ : App) : list (option MessageEntry) :=
  (λ r, store σ !! r) <$> msg_hist σ.

(** What the spec calls a message: the author and the content, here both
    the saved content and the text on display. *)
Record Message : Type := mkMessage {
  msg_author : string;
  msg_content : string;
  msg_displayed : string
}.

Definition message (e : MessageEntry) : Message :=
  {| msg_author := author e;
     msg_content := saved_content e;
     msg_displayed := value (text_box e) |}.

Definition history (σ : App) : list (option Message) :=
  (λ row : option MessageEntry, message <$> row) <$> rows σ.

(** The two modes of a message entry (spec, section 4.1). *)
Definition Viewing (e : MessageEntry) : Prop :=
  disabled (text_box e) = true ∧
  visible (edit_button e) = true ∧ visible (delete_button e) = true ∧
  visible (save_button e) = false ∧ visible (cancel_button e) = false.

Definition Editing (e : MessageEntry) : Prop :=
  disabled (text_box e) = false ∧
  visible (save_button e) = true ∧ visible (cancel_button e) = true ∧
  visible (edit_button e) = false ∧ visible (delete_button e) = false.

(** The visibility invariant of a message entry. *)
Definition consistent (e : MessageEntry) : Prop :=
  disabled (text_box e) = visible (edit_button e) ∧
  visible (edit_button e) = visible (delete_button e) ∧
  visible (delete_button e) = negb (visible (save_button e)) ∧
  negb (visible (save_button e)) = negb (visible (cancel_button e)).

(** The net effect of the three mode handlers on the attributes of [self]. *)
Definition edited (e : MessageEntry) : MessageEntry :=
  with_text_box (set_disabled false)
    (with_delete_button (set_visible false)
      (with_cancel_button (set_visible true)
        (with_save_button (set_visible true)
          (with_edit_button (set_visible false) e)))).

Definition viewed (e : MessageEntry) : MessageEntry :=
  with_text_box (set_disabled true)
    (with_delete_button (set_visible true)
      (with_cancel_button (set_visible false)
        (with_save_button (set_visible false)
          (with_edit_button (set_visible true) e)))).

Definition saved (e : MessageEntry) : MessageEntry :=
  viewed (with_saved_content (value (text_box e)) e).

Definition cancelled (e : MessageEntry) : MessageEntry :=
  viewed (with_text_box (set_value (saved_content e)) e).

(** The net effect of [keystrokes]. *)
Definition typed (vs : list string) (e : MessageEntry) : MessageEntry :=
  foldl (λ e v, with_text_box (set_value v) e) e vs.

(** The attributes no handler assigns. *)
Definition same_fixed_attributes (e e' : MessageEntry) : Prop :=
  author e' = author e ∧
  me_parent e' = me_parent e ∧
  label (text_box e') = label (text_box e) ∧
  multiline (text_box e') = multiline (text_box e) ∧
  expand (text_box e') = expand (text_box e) ∧
  (text (edit_button e'), on_click (edit_button e')) =
    (text (edit_button e), on_click (edit_button e)) ∧
  (text (save_button e'), on_click (save_button e')) =
    (text (save_button e), on_click (save_button e)) ∧
  (text (cancel_button e'), on_click (cancel_button e')) =
    (text (cancel_button e), on_click (cancel_button e)) ∧
  (text (delete_button e'), on_click (delete_button e')) =
    (text (delete_button e), on_click (delete_button e)).

(** Store invariants of a running page: every row is a live object, no
    object is shown twice, and every button still calls the method of the
    entry it belongs to. *)
Definition bound (r : ref) (e : MessageEntry) : Prop :=
  on_click (edit_button e) = on_edit_of r ∧
  on_click (save_button e) = on_save_of r ∧
  on_click (cancel_button e) = on_cancel_of r ∧
  on_click (delete_button e) = on_delete_of r.

Record well_formed (σ : App) : Prop := {
  wf_live : ∀ r, r ∈ msg_hist σ → is_Some (store σ !! r);
  wf_nodup : NoDup (msg_hist σ);
  wf_bound : ∀ r e, store σ !! r = Some e → bound r e;
  wf_send : on_click (send_button σ) = on_send_of
}.

(** The effect of an action, as a relation between the page before and
    after it. *)
Inductive effect (σ : App) : Action → App → Prop :=
  | effect_type_input s :
      effect σ (TypeInput s) (with_input_box (set_value s) σ)
  | effect_send σ' :
      on_send σ = Ok (tt, σ') → effect σ ClickSend σ'
  | effect_type_message r s e :
      store σ !! r = Some e →
      effect σ (TypeMessage r s)
        (with_store (insert r (with_text_box (set_value s) e)) σ)
  | effect_edit r e :
      store σ !! r = Some e →
      effect σ (ClickEdit r)
        (with_focused (focus_text_box r)
           (with_store (insert r (edited e)) σ))
  | effect_save r e :
      store σ !! r = Some e →
      effect σ (ClickSave r) (with_store (insert r (saved e)) σ)
  | effect_cancel r e :
      store σ !! r = Some e →
      effect σ (ClickCancel r) (with_store (insert r (cancelled e)) σ)
  | effect_delete r e l :
      store σ !! r = Some e →
      list_remove r (msg_hist σ) = Some l →
      effect σ (ClickDelete r) (with_msg_hist (λ _, l) σ).

(** ** Sessions *)

(** User actions one after another, stopping at the first exception. *)
Fixpoint run (acts : list Action) : M unit :=
  match acts with
  | [] => mret tt
  | a :: acts' => perform a;; run acts'
  end.

(** Typing and sending one message after another. *)
Fixpoint send_all (ss : list string) : M unit :=
  match ss with
  | [] => mret tt
  | s :: ss' => type_input_box s;; on_send;; send_all ss'
  end.

(** The two rows a send of [s] adds, as messages. *)
Definition exchange (s : string) : list (option Message) :=
  [ Some (mkMessage "You" s s);
    Some (mkMessage "AI" "Processing..." "Processing...") ].

Definition is_send (a : Action) : bool :=
  match a with ClickSend => true | _ => false end.

Definition is_delete (a : Action) : bool :=
  match a with ClickDelete _ => true | _ => false end.

Instance Handler_eq_dec : EqDecision Handler.
Proof. solve_decision. Defined.

(** The net effect of the handler [h] on the attributes of the entry [r]. *)
Definition handled (h : Handler) (r : ref) (e : MessageEntry) : MessageEntry :=
  match h with
  | on_edit_of s => if decide (s = r) then edited e else e
  | on_save_of s => if decide (s = r) then saved e else e
  | on_cancel_of s => if decide (s = r) then cancelled e else e
  | on_delete_of _ | on_send_of => e
  end.

(** What the page lets the user do: type into a text field that is not
    disabled, click a button that is visible, both only on rows that
    [msg_hist] shows. *)
Definition shows (σ : App) (r : ref) (p : MessageEntry → bool) : Prop :=
  r ∈ msg_hist σ ∧ ∃ e, store σ !! r = Some e ∧ p e = true.

Definition enabled (σ : App) (a : Action) : Prop :=
  match a with
  | TypeInput _ => disabled (input_box σ) = false
  | ClickSend => visible (send_button σ) = true
  | TypeMessage r _ => shows σ r (λ e, negb (disabled (text_box e)))
  | ClickEdit r => shows σ r (λ e, visible (edit_button e))
  | ClickSave r => shows σ r (λ e, visible (save_button e))
  | ClickCancel r => shows σ r (λ e, visible (cancel_button e))
  | ClickDelete r => shows σ r (λ e, visible (delete_button e))
  end.

(** Page load followed by any number of actions the page lets the user do. *)
Inductive usable : App → Prop :=
  | usable_load σ :
      exec STMainPage_init blank = Ok σ → usable σ
  | usable_step σ a σ' :
      usable σ → enabled σ a → exec (perform a) σ = Ok σ' →
      usable σ'.

(** The attributes the constructor fixes for every message entry. *)
Definition labelled (e : MessageEntry) : Prop :=
  label (text_box e) = author e ∧
  author e ∈ ["Setting"; "AI"; "You"] ∧
  multiline (text_box e) = true ∧ expand (text_box e) = true ∧
  text (edit_button e) = "Edit" ∧ text (save_button e) = "Save" ∧
  text (cancel_button e) = "Cancel" ∧ text (delete_button e) = "Delete".

(** * Proofs *)

(** ** The monad *)

Lemma bind_ok {A B} (m : M A) (k : A → M B) σ a σ' :
  m σ = Ok (a, σ') → (m ≫= k) σ = k a σ'.
Proof. intros H. unfold mbind, M_bind. by rewrite H. Qed.

Lemma bind_raise {A B} (m : M A) (k : A → M B) σ x :
  m σ = Raise x → (m ≫= k) σ = Raise x.
Proof. intros H. unfold mbind, M_bind. by rewrite H. Qed.

Lemma bind_inv {A B} (m : M A) (k : A → M B) σ b σ'' :
  (m ≫= k) σ = Ok (b, σ'') →
  ∃ a σ', m σ = Ok (a, σ') ∧ k a σ' = Ok (b, σ'').
Proof.
  unfold mbind, M_bind. destruct (m σ) as [[a σ']|x]; [|done].
  intros H. by exists a, σ'.
Qed.

Lemma exec_ok {A} (m : M A) σ a σ' : m σ = Ok (a, σ') → exec m σ = Ok σ'.
Proof. intros H. unfold exec. by rewrite H. Qed.

Lemma exec_inv {A} (m : M A) σ σ' :
  exec m σ = Ok σ' → ∃ a, m σ = Ok (a, σ').
Proof.
  unfold exec. destruct (m σ) as [[a σ1]|x]; [|done].
  intros [= <-]. by exists a.
Qed.

Lemma read_ok σ r e : store σ !! r = Some e → read r σ = Ok (e, σ).
Proof. intros H. unfold read. by rewrite H. Qed.

Lemma read_inv σ r e σ' :
  read r σ = Ok (e, σ') → store σ !! r = Some e ∧ σ' = σ.
Proof.
  unfold read. destruct (store σ !! r) as [e0|]; [|done].
  by intros [= <- <-].
Qed.

Lemma assign_ok σ r e f :
  store σ !! r = Some e →
  assign r f σ = Ok (tt, with_store (insert r (f e)) σ).
Proof. intros H. unfold assign. by rewrite (bind_ok _ _ _ _ _ (read_ok _ _ _ H)). Qed.

(** An assignment followed by the rest of the handler. *)
Lemma assign_seq {B} σ r e f (k : M B) :
  store σ !! r = Some e →
  (assign r f;; k) σ = k (with_store (insert r (f e)) σ).
Proof. intros H. by rewrite (bind_ok _ _ _ _ _ (assign_ok _ _ _ f H)). Qed.

Lemma read_seq {B} σ r e (k : MessageEntry → M B) :
  store σ !! r = Some e → (read r ≫= k) σ = k e σ.
Proof. intros H. by rewrite (bind_ok _ _ _ _ _ (read_ok _ _ _ H)). Qed.

Lemma modify_seq {B} σ f (k : M B) : (modify f;; k) σ = k (f σ).
Proof. done. Qed.

Lemma store_assigned σ r (e : MessageEntry) :
  store (with_store (insert r e) σ) !! r = Some e.
Proof. simpl. apply lookup_insert_eq. Qed.

Lemma with_store_insert_insert σ r (e e' : MessageEntry) :
  with_store (insert r e') (with_store (insert r e) σ) =
  with_store (insert r e') σ.
Proof. unfold with_store. simpl. by rewrite insert_insert_eq. Qed.

Ltac run_assign :=
  repeat (erewrite assign_seq by (first [eassumption | apply store_assigned]);
          rewrite ?with_store_insert_insert).

(** ** Net effect of the handlers *)

Lemma on_edit_ok σ r e :
  store σ !! r = Some e →
  on_edit r σ =
    Ok (tt, with_focused (focus_text_box r)
              (with_store (insert r (edited e)) σ)).
Proof. intros H. unfold on_edit. by run_assign. Qed.

Lemma on_save_ok σ r e :
  store σ !! r = Some e →
  on_save r σ = Ok (tt, with_store (insert r (saved e)) σ).
Proof.
  intros H. unfold on_save. rewrite (read_seq _ _ _ _ H). by run_assign.
Qed.

Lemma on_cancel_ok σ r e :
  store σ !! r = Some e →
  on_cancel r σ = Ok (tt, with_store (insert r (cancelled e)) σ).
Proof.
  intros H. unfold on_cancel. rewrite (read_seq _ _ _ _ H). by run_assign.
Qed.

Lemma type_text_box_ok σ r e s :
  store σ !! r = Some e →
  type_text_box r s σ =
    Ok (tt, with_store (insert r (with_text_box (set_value s) e)) σ).
Proof. apply assign_ok. Qed.

(** ** [list.remove] *)

Lemma list_remove_elem x l :
  x ∈ l →
  ∃ l1 l2,
    l = l1 ++ (x :: l2) ∧ (x ∉ l1) ∧ list_remove x l = Some (l1 ++ l2).
Proof.
  induction l as [|y l IH]; intros Hin.
  - by apply not_elem_of_nil in Hin.
  - simpl. destruct (decide (y = x)) as [->|Hne].
    + exists [], l. split_and!; [done | apply not_elem_of_nil | done].
    + apply elem_of_cons in Hin as [->|Hin]; [done|].
      destruct (IH Hin) as (l1 & l2 & -> & Hl1 & ->).
      exists (y :: l1), l2. split_and!; [done | | done].
      rewrite elem_of_cons. intros [->|?]; done.
Qed.

Lemma list_remove_absent x l : x ∉ l → list_remove x l = None.
Proof.
  induction l as [|y l IH]; [done|].
  rewrite not_elem_of_cons. intros [Hne Hl]. simpl.
  destruct (decide (y = x)) as [->|_]; [done|]. by rewrite IH.
Qed.

Lemma list_remove_Some_elem x l l' : list_remove x l = Some l' → x ∈ l.
Proof.
  intros H. destruct (decide (x ∈ l)) as [|Hn]; [done|].
  by rewrite (list_remove_absent _ _ Hn) in H.
Qed.

Lemma list_remove_sublist x l l' : list_remove x l = Some l' → sublist l' l.
Proof.
  intros H. destruct (list_remove_elem x l) as (l1 & l2 & -> & _ & H');
    [by eapply list_remove_Some_elem|].
  rewrite H' in H. injection H as <-.
  apply sublist_app; [done|]. by apply sublist_cons.
Qed.

Lemma list_remove_length x l l' :
  list_remove x l = Some l' → length l = S (length l').
Proof.
  intros H. destruct (list_remove_elem x l) as (l1 & l2 & -> & _ & H');
    [by eapply list_remove_Some_elem|].
  rewrite H' in H. injection H as <-. rewrite !length_app. simpl. lia.
Qed.

Lemma list_remove_NoDup x l l' :
  NoDup l → list_remove x l = Some l' → x ∉ l'.
Proof.
  intros Hnd H. destruct (list_remove_elem x l) as (l1 & l2 & -> & Hl1 & H');
    [by eapply list_remove_Some_elem|].
  rewrite H' in H. injection H as <-.
  apply NoDup_app in Hnd as (_ & _ & Hnd2).
  apply NoDup_cons in Hnd2 as [Hl2 _].
  by intros [?|?]%elem_of_app.
Qed.

Lemma on_delete_ok σ r e l :
  store σ !! r = Some e →
  list_remove r (msg_hist σ) = Some l →
  on_delete r σ = Ok (tt, with_msg_hist (λ _, l) σ).
Proof.
  intros H Hl. unfold on_delete. rewrite (read_seq _ _ _ _ H).
  destruct (me_parent e). unfold msg_hist_remove.
  unfold mbind, M_bind, get. by rewrite Hl.
Qed.

(** Deleting an entry that is not a child of [msg_hist] is the one way a
    handler can raise. *)
Lemma on_delete_absent σ r e :
  store σ !! r = Some e →
  r ∉ msg_hist σ →
  on_delete r σ = Raise ValueError.
Proof.
  intros H Hl. unfold on_delete. rewrite (read_seq _ _ _ _ H).
  destruct (me_parent e). unfold msg_hist_remove.
  unfold mbind, M_bind, get. by rewrite (list_remove_absent _ _ Hl).
Qed.

(** ** Allocation, page load and [on_send] *)

Lemma alloc_fresh σ : store σ !! fresh (dom (store σ)) = None.
Proof. apply not_elem_of_dom, is_fresh. Qed.

(** The state [on_send] leaves behind, spelled out. *)
Lemma on_send_ok σ :
  let you := fresh (dom (store σ)) in
  let e_you :=
    MessageEntry_init "You" (value (input_box σ)) msg_hist_column you in
  let ai := fresh (dom (<[you := e_you]> (store σ))) in
  let e_ai := MessageEntry_init "AI" "Processing..." msg_hist_column ai in
  on_send σ =
    Ok (tt, {| store := <[ai := e_ai]> (<[you := e_you]> (store σ));
               msg_hist := (msg_hist σ ++ [you]) ++ [ai];
               input_box := set_value "" (input_box σ);
               send_button := send_button σ;
               focused := Some focus_input_box |}).
Proof. done. Qed.

Lemma on_send_fresh σ :
  let you := fresh (dom (store σ)) in
  let e_you :=
    MessageEntry_init "You" (value (input_box σ)) msg_hist_column you in
  let ai := fresh (dom (<[you := e_you]> (store σ))) in
  store σ !! you = None ∧ store σ !! ai = None ∧ you ≠ ai.
Proof.
  intros you e_you ai.
  assert (ai ∉ dom (<[you := e_you]> (store σ))) as Hai by apply is_fresh.
  rewrite dom_insert_L in Hai.
  split_and!.
  - apply alloc_fresh.
  - apply not_elem_of_dom. set_solver.
  - set_solver.
Qed.

Lemma STMainPage_init_ok : exec STMainPage_init blank = Ok loaded.
Proof. vm_compute. reflexivity. Qed.

(** ** What each user action does to a well-formed page *)

Lemma exec_det {A} (m : M A) σ a σ1 σ' :
  m σ = Ok (a, σ1) → exec m σ = Ok σ' → σ' = σ1.
Proof. intros H. unfold exec. rewrite H. by intros [= <-]. Qed.

Lemma read_bind_inv {B} r (k : MessageEntry → M B) σ σ' :
  exec (read r ≫= k) σ = Ok σ' →
  ∃ e, store σ !! r = Some e ∧ exec (k e) σ = Ok σ'.
Proof.
  unfold exec, mbind, M_bind, read.
  destruct (store σ !! r) as [e|]; [|done]. intros H. by exists e.
Qed.

Lemma perform_effect σ a σ' :
  well_formed σ → exec (perform a) σ = Ok σ' → effect σ a σ'.
Proof.
  intros Hwf Hexec. destruct a as [s| |r s|r|r|r|r].
  - injection Hexec as <-. constructor.
  - assert (exec on_send σ = Ok σ') as H.
    { revert Hexec. unfold perform, exec, mbind, M_bind, get.
      by rewrite (wf_send _ Hwf). }
    apply exec_inv in H as [[] H]. by constructor.
  - unfold type_text_box, assign in Hexec.
    apply read_bind_inv in Hexec as (e & He & Hexec).
    injection Hexec as <-. by constructor.
  - apply read_bind_inv in Hexec as (e & He & Hexec). cbv beta in Hexec.
    destruct (wf_bound _ Hwf r e He) as (Hb & _). rewrite Hb in Hexec. simpl in Hexec.
    rewrite (exec_det _ _ _ _ _ (on_edit_ok _ _ _ He) Hexec).
    by constructor.
  - apply read_bind_inv in Hexec as (e & He & Hexec). cbv beta in Hexec.
    destruct (wf_bound _ Hwf r e He) as (_ & Hb & _). rewrite Hb in Hexec. simpl in Hexec.
    rewrite (exec_det _ _ _ _ _ (on_save_ok _ _ _ He) Hexec).
    by constructor.
  - apply read_bind_inv in Hexec as (e & He & Hexec). cbv beta in Hexec.
    destruct (wf_bound _ Hwf r e He) as (_ & _ & Hb & _). rewrite Hb in Hexec. simpl in Hexec.
    rewrite (exec_det _ _ _ _ _ (on_cancel_ok _ _ _ He) Hexec).
    by constructor.
  - apply read_bind_inv in Hexec as (e & He & Hexec). cbv beta in Hexec.
    destruct (wf_bound _ Hwf r e He) as (_ & _ & _ & Hb). rewrite Hb in Hexec. simpl in Hexec.
    destruct (list_remove r (msg_hist σ)) as [l|] eqn:Hl.
    + rewrite (exec_det _ _ _ _ _ (on_delete_ok _ _ _ _ He Hl) Hexec).
      by econstructor.
    + assert (r ∉ msg_hist σ) as Hn.
      { intros Hin. destruct (list_remove_elem _ _ Hin) as (?&?&_&_&?).
        congruence. }
      unfold exec in Hexec. by rewrite (on_delete_absent _ _ _ He Hn) in Hexec.
Qed.

(** Progress: on a well-formed page every action on a shown row runs to
    completion. *)
Lemma perform_progress σ a :
  well_formed σ → on_screen σ a → ∃ σ', exec (perform a) σ = Ok σ'.
Proof.
  intros Hwf Hon. destruct a as [s| |r s|r|r|r|r]; simpl in *;
    unfold on_screen in Hon; simpl in Hon;
    try (destruct (wf_live _ Hwf r Hon) as [e He];
         pose proof (wf_bound _ Hwf r e He) as (Hb1 & Hb2 & Hb3 & Hb4)).
  - by eexists.
  - unfold exec, mbind, M_bind, get. rewrite (wf_send _ Hwf). simpl.
    by eexists.
  - eexists. eapply exec_ok. by apply type_text_box_ok.
  - eexists. eapply exec_ok. rewrite (read_seq _ _ _ _ He), Hb1.
    by apply on_edit_ok.
  - eexists. eapply exec_ok. rewrite (read_seq _ _ _ _ He), Hb2.
    by apply on_save_ok.
  - eexists. eapply exec_ok. rewrite (read_seq _ _ _ _ He), Hb3.
    by apply on_cancel_ok.
  - destruct (list_remove_elem _ _ Hon) as (l1 & l2 & _ & _ & Hl).
    eexists. eapply exec_ok. rewrite (read_seq _ _ _ _ He), Hb4.
    by eapply on_delete_ok.
Qed.

(** ** The store invariants *)

Lemma bound_edited r e : bound r e → bound r (edited e).
Proof. done. Qed.

Lemma bound_saved r e : bound r e → bound r (saved e).
Proof. done. Qed.

Lemma bound_cancelled r e : bound r e → bound r (cancelled e).
Proof. done. Qed.

Lemma bound_typed r e s : bound r e → bound r (with_text_box (set_value s) e).
Proof. done. Qed.

Lemma bound_init a m p r : bound r (MessageEntry_init a m p r).
Proof. done. Qed.

Lemma well_formed_insert σ r e e' :
  well_formed σ → store σ !! r = Some e → bound r e' →
  well_formed (with_store (insert r e') σ).
Proof.
  intros [Hlive Hnd Hb Hs] He Hb'. split; simpl; [|done| |done].
  - intros r' Hr'. apply lookup_insert_is_Some.
    destruct (decide (r = r')); [by left|right]. split; [done|]. by apply Hlive.
  - intros r' e0 [[<- <-]|[_ H0]]%lookup_insert_Some; [done|]. by apply Hb.
Qed.

Lemma well_formed_focused σ w :
  well_formed σ → well_formed (with_focused w σ).
Proof. intros [Hlive Hnd Hb Hs]. by split. Qed.

Lemma well_formed_loaded : well_formed loaded.
Proof.
  split; simpl.
  - intros r Hr.
    apply elem_of_cons in Hr as [->|Hr%list_elem_of_singleton]; [|subst r];
      eexists; vm_compute; reflexivity.
  - apply NoDup_cons. split; [|apply NoDup_singleton].
    intros H%list_elem_of_singleton. discriminate.
  - intros r e [[<- <-]|[_ H]]%lookup_insert_Some; [done|].
    apply lookup_insert_Some in H as [[<- <-]|[_ H]]; [done|].
    by rewrite lookup_empty in H.
  - done.
Qed.

Lemma well_formed_send σ σ' :
  well_formed σ → on_send σ = Ok (tt, σ') → well_formed σ'.
Proof.
  intros [Hlive Hnd Hb Hs] Hsend. rewrite on_send_ok in Hsend.
  destruct (on_send_fresh σ) as (Hyou & Hai & Hne).
  cbv zeta in Hsend. injection Hsend as <-.
  set (you := fresh (dom (store σ))) in *.
  set (e_you := MessageEntry_init "You" _ _ you) in *.
  set (ai := fresh (dom (<[you:=e_you]> (store σ)))) in *.
  assert (∀ r, r ∈ msg_hist σ → r ≠ you ∧ r ≠ ai) as Hold.
  { intros r [e He]%Hlive. split; intros ->; congruence. }
  split; simpl.
  - intros r Hr. rewrite !lookup_insert_is_Some.
    apply elem_of_app in Hr as [Hr|Hr%list_elem_of_singleton].
    + apply elem_of_app in Hr as [Hr|Hr%list_elem_of_singleton].
      * destruct (Hold r Hr). right. split; [done|]. right. split; [done|].
        by apply Hlive.
      * subst r. right. split; [done|]. by left.
    + by left.
  - apply NoDup_app. split_and!.
    + apply NoDup_app. split_and!; [done| |apply NoDup_singleton].
      intros r Hr ->%list_elem_of_singleton. by destruct (Hold _ Hr).
    + intros r Hr ->%list_elem_of_singleton.
      apply elem_of_app in Hr as [Hr|Hr%list_elem_of_singleton]; [|done].
      by destruct (Hold _ Hr).
    + apply NoDup_singleton.
  - intros r e [[<- <-]|[_ H]]%lookup_insert_Some; [done|].
    apply lookup_insert_Some in H as [[<- <-]|[_ H]]; [done|]. by apply Hb.
  - done.
Qed.

Lemma well_formed_effect σ a σ' :
  well_formed σ → effect σ a σ' → well_formed σ'.
Proof.
  intros Hwf Heff. destruct Heff as [s|σ' Hs|r s e He|r e He|r e He|r e He|r e l He Hl].
  - destruct Hwf. by split.
  - by eapply well_formed_send.
  - eapply well_formed_insert; [done..|]. apply bound_typed. by eapply wf_bound.
  - apply well_formed_focused. eapply well_formed_insert; [done..|].
    apply bound_edited. by eapply wf_bound.
  - eapply well_formed_insert; [done..|]. apply bound_saved. by eapply wf_bound.
  - eapply well_formed_insert; [done..|]. apply bound_cancelled.
    by eapply wf_bound.
  - destruct Hwf as [Hlive Hnd Hb Hs].
    pose proof (list_remove_sublist _ _ _ Hl) as Hsub. split; simpl; [| |done..].
    + intros r' Hr'. apply Hlive. by eapply elem_of_sublist.
    + by eapply sublist_NoDup.
Qed.

Lemma reachable_well_formed σ : reachable σ → well_formed σ.
Proof.
  induction 1 as [σ Hload|σ a σ' _ IH _ Hexec].
  - rewrite STMainPage_init_ok in Hload. injection Hload as <-.
    apply well_formed_loaded.
  - eapply well_formed_effect; [done|]. by apply perform_effect.
Qed.

(** ** Clicks and handlers *)

Lemma click_send_is_on_send σ :
  well_formed σ → perform ClickSend σ = on_send σ.
Proof.
  intros Hwf. unfold perform, mbind, M_bind, get.
  by rewrite (wf_send _ Hwf).
Qed.

Lemma click_is_handler σ r :
  well_formed σ → r ∈ msg_hist σ →
  perform (ClickEdit r) σ = on_edit r σ ∧
  perform (ClickSave r) σ = on_save r σ ∧
  perform (ClickCancel r) σ = on_cancel r σ ∧
  perform (ClickDelete r) σ = on_delete r σ.
Proof.
  intros Hwf Hr. destruct (wf_live _ Hwf r Hr) as [e He].
  destruct (wf_bound _ Hwf r e He) as (H1 & H2 & H3 & H4).
  unfold perform. rewrite !(read_seq _ _ _ _ He).
  by rewrite H1, H2, H3, H4.
Qed.

Lemma exec_ext {A} (m m' : M A) σ : m σ = m' σ → exec m σ = exec m' σ.
Proof. unfold exec. by intros ->. Qed.

(** ** Typing *)

Lemma with_store_insert_id σ r e :
  store σ !! r = Some e → with_store (insert r e) σ = σ.
Proof.
  intros H. destruct σ. unfold with_store. simpl in *. f_equal.
  by apply insert_id.
Qed.

Lemma keystrokes_ok vs σ r e :
  store σ !! r = Some e →
  keystrokes r vs σ = Ok (tt, with_store (insert r (typed vs e)) σ).
Proof.
  revert σ e. induction vs as [|v vs IH]; intros σ e He; simpl.
  - by rewrite with_store_insert_id.
  - unfold type_text_box. rewrite (assign_seq _ _ _ _ _ He).
    rewrite (IH _ _ (store_assigned _ _ _)).
    by rewrite with_store_insert_insert.
Qed.

Lemma typed_saved_content vs e : saved_content (typed vs e) = saved_content e.
Proof. revert e. induction vs as [|v vs IH]; intros e; [done|]. simpl. by rewrite IH. Qed.

Lemma typed_overwritten vs e s :
  with_text_box (set_value s) (typed vs e) = with_text_box (set_value s) e.
Proof. revert e. induction vs as [|v vs IH]; intros e; [done|]. simpl. by rewrite IH. Qed.

Lemma cancelled_typed vs e : cancelled (typed vs e) = cancelled e.
Proof.
  unfold cancelled. by rewrite typed_saved_content, typed_overwritten.
Qed.

(** * The claims *)

(** ** Page load *)

(** C5: on page load, before any user interaction, the message list holds
    exactly two entries, in this order: author "Setting" with content
    "Welcome to the Chat-Tinker GUI!", then author "AI" with content
    "Type 'exit' to exit the application.". *)
Theorem initial_history :
  ∃ σ, exec STMainPage_init blank = Ok σ ∧
    history σ =
      [ Some (mkMessage "Setting" "Welcome to the Chat-Tinker GUI!"
                "Welcome to the Chat-Tinker GUI!");
        Some (mkMessage "AI" "Type 'exit' to exit the application."
                "Type 'exit' to exit the application.") ].
Proof. exists loaded. split; [apply STMainPage_init_ok|]. vm_compute. reflexivity. Qed.

(** C6, as the spec words it, fails: the content of the seeded AI line is not
    the abridged sentence "Type 'exit' to exit.". *)
Lemma seeded_hint_is_not_abridged :
  ¬ (∀ σ e, exec STMainPage_init blank = Ok σ →
            rows σ !! 1 = Some (Some e) →
            saved_content e = "Type 'exit' to exit.").
Proof.
  intros H.
  specialize (H loaded _ STMainPage_init_ok eq_refl). discriminate H.
Qed.

(** C6, amended: the seeded AI instruction line, the second row after load,
    has author "AI" and its content, saved and displayed, is exactly
    "Type 'exit' to exit the application.". *)
Theorem seeded_hint_content :
  ∃ σ e, exec STMainPage_init blank = Ok σ ∧
    rows σ !! 1 = Some (Some e) ∧
    author e = "AI" ∧
    saved_content e = "Type 'exit' to exit the application." ∧
    value (text_box e) = "Type 'exit' to exit the application.".
Proof.
  exists loaded. eexists. split; [apply STMainPage_init_ok|].
  split; [vm_compute; reflexivity|]. done.
Qed.

(** ** Sending *)

(** C7: after every call to send, whatever the page looked like before, the
    call returns and the input field holds the empty string. *)
Theorem send_clears_input (σ : App) :
  ∃ σ', exec on_send σ = Ok σ' ∧ value (input_box σ') = "".
Proof. eexists. split; [apply (exec_ok _ _ tt), on_send_ok|]. done. Qed.

(** C1: for every input string [s] (the empty string and blank strings are
    not treated apart), typing [s] into the input box and calling send
    appends exactly two new entries at the end of the message list: first
    one with author "You" and content [s], then one with author "AI" and
    content "Processing...".  Both are new objects, and no existing entry is
    modified, removed or reordered. *)
Theorem send_appends_two (σ : App) (s : string) :
  ∃ you ai σ',
    let e_you := MessageEntry_init "You" s msg_hist_column you in
    let e_ai := MessageEntry_init "AI" "Processing..." msg_hist_column ai in
    exec (type_input_box s;; on_send) σ = Ok σ' ∧
    msg_hist σ' = msg_hist σ ++ [you; ai] ∧
    store σ !! you = None ∧ store σ !! ai = None ∧ you ≠ ai ∧
    store σ' !! you = Some e_you ∧
    store σ' !! ai = Some e_ai ∧
    message e_you = mkMessage "You" s s ∧
    message e_ai = mkMessage "AI" "Processing..." "Processing..." ∧
    (∀ r e, store σ !! r = Some e → store σ' !! r = Some e) ∧
    (∀ r, is_Some (store σ' !! r) →
          is_Some (store σ !! r) ∨ r = you ∨ r = ai) ∧
    ((∀ r, r ∈ msg_hist σ → is_Some (store σ !! r)) →
     rows σ' = rows σ ++ [Some e_you; Some e_ai]).
Proof.
  set (σ0 := with_input_box (set_value s) σ).
  destruct (on_send_fresh σ0) as (Hyou & Hai & Hne).
  pose proof (on_send_ok σ0) as Hsend. cbv zeta in *.
  set (you := fresh (dom (store σ0))) in *.
  set (e_you := MessageEntry_init "You" _ _ you) in *.
  set (ai := fresh (dom (<[you:=e_you]> (store σ0)))) in *.
  set (e_ai := MessageEntry_init "AI" _ _ ai) in *.
  assert (∀ r e, store σ !! r = Some e →
                 <[ai:=e_ai]> (<[you:=e_you]> (store σ)) !! r = Some e) as Hold.
  { intros r e He. rewrite !lookup_insert_ne; [done|..]; intros ->;
      simpl in *; congruence. }
  exists you, ai. eexists. split_and!.
  - apply (exec_ok _ _ tt). unfold type_input_box. rewrite modify_seq.
    apply Hsend.
  - simpl. by rewrite <- app_assoc.
  - done.
  - done.
  - done.
  - simpl. rewrite lookup_insert_ne by done. apply lookup_insert_eq.
  - simpl. apply lookup_insert_eq.
  - done.
  - done.
  - apply Hold.
  - simpl. intros r. rewrite !lookup_insert_is_Some.
    intros [<-|[_ [<-|[_ H]]]]; [by right; right|by right; left|by left].
  - intros Hlive. unfold rows. simpl. rewrite <- app_assoc, fmap_app. simpl.
    rewrite lookup_insert_ne by done. rewrite !lookup_insert_eq.
    f_equal. apply list_fmap_ext. intros i r Hr.
    destruct (Hlive r) as [e He]; [by eapply list_elem_of_lookup_2|].
    by rewrite He, (Hold _ _ He).
Qed.

(** Sending "hello", the empty string and a blank string from the loaded
    page. *)
Example send_hello :
  history <$> exec (type_input_box "hello";; on_send) loaded =
  Ok [ Some (mkMessage "Setting" "Welcome to the Chat-Tinker GUI!"
               "Welcome to the Chat-Tinker GUI!");
       Some (mkMessage "AI" "Type 'exit' to exit the application."
               "Type 'exit' to exit the application.");
       Some (mkMessage "You" "hello" "hello");
       Some (mkMessage "AI" "Processing..." "Processing...") ].
Proof. vm_compute. reflexivity. Qed.

Example send_empty_and_blank :
  drop 2 <$> (history <$>
    exec (type_input_box "";; on_send;; type_input_box "  ";; on_send) loaded)
  = Ok [ Some (mkMessage "You" "" "");
         Some (mkMessage "AI" "Processing..." "Processing...");
         Some (mkMessage "You" "  " "  ");
         Some (mkMessage "AI" "Processing..." "Processing...") ].
Proof. vm_compute. reflexivity. Qed.

(** ** Editing one entry *)

Lemma edit_keystrokes_cancel_ok σ r e vs :
  store σ !! r = Some e →
  ∃ σ', (on_edit r;; keystrokes r vs;; on_cancel r) σ = Ok (tt, σ') ∧
        store σ' !! r = Some (cancelled e) ∧
        msg_hist σ' = msg_hist σ.
Proof.
  intros He. eexists. split; [|split].
  - rewrite (bind_ok _ _ _ _ _ (on_edit_ok _ _ _ He)).
    assert (store (with_focused (focus_text_box r)
                     (with_store (insert r (edited e)) σ)) !! r
            = Some (edited e)) as H1 by apply lookup_insert_eq.
    rewrite (bind_ok _ _ _ _ _ (keystrokes_ok vs _ _ _ H1)).
    apply on_cancel_ok, store_assigned.
  - simpl. rewrite lookup_insert_eq. by rewrite cancelled_typed.
  - done.
Qed.


(** C2: for every entry [e] shown in the message list of a reachable page,
    whatever its saved content [c], edit(), then any amount of typing into
    the text field, then cancel() returns and leaves the displayed and the
    saved content both equal to [c], the value saved before the edit began;
    the entry is back in viewing mode and the message list is as it was.
    (An entry that delete() has taken off the page is out of scope: flet
    refuses [focus()] and [update()] on a control that is not on the page.) *)
Theorem edit_cancel_round_trip
  (σ : App) (r : ref) (e : MessageEntry) (vs : list string) :
  reachable σ →
  r ∈ msg_hist σ →
  store σ !! r = Some e →
  ∃ σ' e',
    exec (on_edit r;; keystrokes r vs;; on_cancel r) σ = Ok σ' ∧
    store σ' !! r = Some e' ∧
    value (text_box e') = saved_content e ∧
    saved_content e' = saved_content e ∧
    Viewing e' ∧
    msg_hist σ' = msg_hist σ.
Proof.
  intros _ _ He.
  destruct (edit_keystrokes_cancel_ok σ r e vs He) as (σ' & Hrun & He' & Hl).
  exists σ', (cancelled e). split_and!; try done.
  by apply (exec_ok _ _ tt).
Qed.

Lemma edit_cancel_round_trip_witness :
  let e := MessageEntry_init "AI" "Type 'exit' to exit the application."
             msg_hist_column 1 in
  ∃ σ' e',
    exec (on_edit 1;; keystrokes 1 ["T"; "Ty"; "Typo"];; on_cancel 1) loaded
      = Ok σ' ∧
    store σ' !! 1 = Some e' ∧
    value (text_box e') = saved_content e ∧
    saved_content e' = saved_content e ∧
    Viewing e' ∧
    msg_hist σ' = msg_hist loaded.
Proof.
  intros e. apply (edit_cancel_round_trip loaded 1 e).
  - apply reachable_load. vm_compute. reflexivity.
  - simpl. apply list_elem_of_further, list_elem_of_here.
  - vm_compute. reflexivity.
Defined.

Lemma edit_type_save_ok σ r e v :
  reachable σ → r ∈ msg_hist σ → store σ !! r = Some e →
  let e1 := saved (with_text_box (set_value v) (edited e)) in
  let σ1 := with_store (insert r e1) (with_focused (focus_text_box r) σ) in
  (on_edit r;; type_text_box r v;; on_save r) σ = Ok (tt, σ1) ∧
  reachable σ1.
Proof.
  intros Hreach Hin He e1 σ1.
  set (σa := with_focused (focus_text_box r)
               (with_store (insert r (edited e)) σ)).
  set (σb := with_store
               (insert r (with_text_box (set_value v) (edited e))) σa).
  assert (store σa !! r = Some (edited e)) as Hea by apply lookup_insert_eq.
  assert (store σb !! r = Some (with_text_box (set_value v) (edited e)))
    as Heb by apply lookup_insert_eq.
  assert (with_store (insert r e1) σb = σ1) as Heq.
  { unfold σ1, σb, σa, with_store, with_focused. simpl.
    by rewrite !insert_insert_eq. }
  assert (reachable σa) as Ha.
  { apply (reachable_step σ (ClickEdit r)); [done|done|].
    destruct (click_is_handler σ r (reachable_well_formed _ Hreach) Hin)
      as (H1 & _).
    rewrite (exec_ext _ _ _ H1). apply (exec_ok _ _ tt). by apply on_edit_ok. }
  assert (reachable σb) as Hb.
  { apply (reachable_step σa (TypeMessage r v)); [done|exact Hin|].
    apply (exec_ok _ _ tt). by apply type_text_box_ok. }
  split.
  - rewrite (bind_ok _ _ _ _ _ (on_edit_ok _ _ _ He)). fold σa.
    unfold type_text_box. rewrite (assign_seq _ _ _ _ _ Hea). fold σb.
    rewrite (on_save_ok _ _ _ Heb). by rewrite <- Heq.
  - rewrite <- Heq. apply (reachable_step σb (ClickSave r)); [done|exact Hin|].
    destruct (click_is_handler σb r (reachable_well_formed _ Hb) Hin)
      as (_ & H2 & _).
    rewrite (exec_ext _ _ _ H2). apply (exec_ok _ _ tt). by apply on_save_ok.
Qed.

(** C3: for every entry shown in the message list of a reachable page,
    edit(), typing [v] (for instance "foo") and save() return and make the
    saved content [v]; the entry stays in the list, on a page that is
    reachable again, and after a later edit(), any typing and cancel(), the
    displayed and the saved content are [v] again, not the content saved
    before the first edit.  In general save() on such an entry commits the
    text on display as the new saved content and goes back to viewing mode.
    (An entry that delete() has taken off the page is out of scope: flet
    refuses [focus()] and [update()] on a control that is not on the page.) *)
Theorem save_commits_displayed_text
  (σ : App) (r : ref) (e : MessageEntry) (v : string) (vs : list string) :
  reachable σ →
  r ∈ msg_hist σ →
  store σ !! r = Some e →
  (∃ σ1 e1 σ2 e2,
     exec (on_edit r;; type_text_box r v;; on_save r) σ = Ok σ1 ∧
     store σ1 !! r = Some e1 ∧
     saved_content e1 = v ∧ value (text_box e1) = v ∧ Viewing e1 ∧
     msg_hist σ1 = msg_hist σ ∧ reachable σ1 ∧
     exec (on_edit r;; keystrokes r vs;; on_cancel r) σ1 = Ok σ2 ∧
     store σ2 !! r = Some e2 ∧
     value (text_box e2) = v ∧ saved_content e2 = v) ∧
  (∃ σ' e',
     exec (on_save r) σ = Ok σ' ∧
     store σ' !! r = Some e' ∧
     saved_content e' = value (text_box e) ∧
     value (text_box e') = value (text_box e) ∧ Viewing e').
Proof.
  intros Hreach Hin He. split.
  - set (e1 := saved (with_text_box (set_value v) (edited e))).
    set (σ1 := with_store (insert r e1)
                 (with_focused (focus_text_box r) σ)).
    assert (store σ1 !! r = Some e1) as H1 by apply lookup_insert_eq.
    destruct (edit_type_save_ok σ r e v Hreach Hin He) as [Hrun1 Hreach1].
    destruct (edit_keystrokes_cancel_ok σ1 r e1 vs H1)
      as (σ2 & Hrun & H2 & _).
    exists σ1, e1, σ2, (cancelled e1).
    split_and!; try done; by apply (exec_ok _ _ tt).
  - exists (with_store (insert r (saved e)) σ), (saved e). split_and!; try done.
    + apply (exec_ok _ _ tt). by apply on_save_ok.
    + apply lookup_insert_eq.
Qed.

Lemma save_commits_displayed_text_witness :
  ∃ σ1 e1 σ2 e2,
    exec (on_edit 0;; type_text_box 0 "foo";; on_save 0) loaded = Ok σ1 ∧
    store σ1 !! 0 = Some e1 ∧
    saved_content e1 = "foo" ∧ value (text_box e1) = "foo" ∧ Viewing e1 ∧
    msg_hist σ1 = msg_hist loaded ∧ reachable σ1 ∧
    exec (on_edit 0;; keystrokes 0 ["b"; "bar"];; on_cancel 0) σ1 = Ok σ2 ∧
    store σ2 !! 0 = Some e2 ∧
    value (text_box e2) = "foo" ∧ saved_content e2 = "foo".
Proof.
  refine (proj1 (save_commits_displayed_text loaded 0
    (MessageEntry_init "Setting" "Welcome to the Chat-Tinker GUI!"
       msg_hist_column 0) "foo" ["b"; "bar"] _ _ _)).
  - apply reachable_load. vm_compute. reflexivity.
  - simpl. apply list_elem_of_here.
  - vm_compute. reflexivity.
Defined.

(** ** Deleting *)

(** C4: for every message list and every entry that occurs in it, delete()
    on that entry returns, removes its (first) occurrence and nothing else,
    so the length goes down by exactly 1 and the remaining entries keep their
    order; when the entry is shown once, as on every reachable page, it is
    gone afterwards.  Nothing depends on the mode the entry is in, and no
    entry object changes. *)
Theorem delete_removes_entry (σ : App) (r : ref) (e : MessageEntry) :
  store σ !! r = Some e →
  r ∈ msg_hist σ →
  ∃ l1 l2 σ',
    msg_hist σ = l1 ++ r :: l2 ∧ (r ∉ l1) ∧
    exec (on_delete r) σ = Ok σ' ∧
    msg_hist σ' = l1 ++ l2 ∧
    length (msg_hist σ) = S (length (msg_hist σ')) ∧
    sublist (msg_hist σ') (msg_hist σ) ∧
    (NoDup (msg_hist σ) → r ∉ msg_hist σ') ∧
    store σ' = store σ ∧ input_box σ' = input_box σ.
Proof.
  intros He Hin.
  destruct (list_remove_elem _ _ Hin) as (l1 & l2 & Hl & Hl1 & Hrem).
  exists l1, l2, (with_msg_hist (λ _, l1 ++ l2) σ). split_and!; try done.
  - apply (exec_ok _ _ tt). by eapply on_delete_ok.
  - by eapply list_remove_length.
  - by eapply list_remove_sublist.
  - intros Hnd. by eapply list_remove_NoDup.
Qed.

Lemma delete_removes_entry_witness :
  ∃ l1 l2 σ',
    msg_hist loaded = l1 ++ 0 :: l2 ∧ (0 ∉ l1) ∧
    exec (on_delete 0) loaded = Ok σ' ∧
    msg_hist σ' = l1 ++ l2 ∧
    length (msg_hist loaded) = S (length (msg_hist σ')) ∧
    sublist (msg_hist σ') (msg_hist loaded) ∧
    (NoDup (msg_hist loaded) → 0 ∉ msg_hist σ') ∧
    store σ' = store loaded ∧ input_box σ' = input_box loaded.
Proof.
  apply (delete_removes_entry loaded 0
    (MessageEntry_init "Setting" "Welcome to the Chat-Tinker GUI!"
       msg_hist_column 0)).
  - vm_compute. reflexivity.
  - simpl. apply list_elem_of_here.
Defined.

(** The handler does not look at the mode: deleting while editing. *)
Example delete_while_editing :
  msg_hist <$> exec (on_edit 0;; type_text_box 0 "draft";; on_delete 0) loaded
  = Ok [1].
Proof. vm_compute. reflexivity. Qed.

(** ** The mode invariant *)

Lemma consistent_init a m p r : consistent (MessageEntry_init a m p r).
Proof. done. Qed.

Lemma consistent_edited e : consistent (edited e).
Proof. done. Qed.

Lemma consistent_saved e : consistent (saved e).
Proof. done. Qed.

Lemma consistent_cancelled e : consistent (cancelled e).
Proof. done. Qed.

Lemma consistent_typed e s :
  consistent e → consistent (with_text_box (set_value s) e).
Proof. done. Qed.

Lemma consistent_modes e :
  consistent e →
  (Editing e ↔ disabled (text_box e) = false) ∧
  (Viewing e ↔ disabled (text_box e) = true).
Proof.
  unfold consistent, Editing, Viewing.
  destruct (disabled (text_box e)), (visible (edit_button e)),
    (visible (delete_button e)), (visible (save_button e)),
    (visible (cancel_button e)); simpl; intuition congruence.
Qed.

Lemma consistent_effect σ a σ' :
  effect σ a σ' →
  (∀ r e, store σ !! r = Some e → consistent e) →
  ∀ r e, store σ' !! r = Some e → consistent e.
Proof.
  intros Heff Hall.
  destruct Heff as [s|σ' Hs|r0 s e0 He|r0 e0 He|r0 e0 He|r0 e0 He|r0 e0 l He Hl];
    simpl; try done.
  - rewrite on_send_ok in Hs. cbv zeta in Hs. injection Hs as <-. simpl.
    intros r e [[_ <-]|[_ H]]%lookup_insert_Some; [done|].
    apply lookup_insert_Some in H as [[_ <-]|[_ H]]; [done|]. by eapply Hall.
  - intros r e [[_ <-]|[_ H]]%lookup_insert_Some; [|by eapply Hall].
    apply consistent_typed. by eapply Hall.
  - intros r e [[_ <-]|[_ H]]%lookup_insert_Some; [done|by eapply Hall].
  - intros r e [[_ <-]|[_ H]]%lookup_insert_Some; [done|by eapply Hall].
  - intros r e [[_ <-]|[_ H]]%lookup_insert_Some; [done|by eapply Hall].
Qed.

Lemma reachable_consistent σ :
  reachable σ → ∀ r e, store σ !! r = Some e → consistent e.
Proof.
  induction 1 as [σ Hload|σ a σ' Hreach IH _ Hexec].
  - rewrite STMainPage_init_ok in Hload. injection Hload as <-. simpl.
    intros r e [[_ <-]|[_ H]]%lookup_insert_Some; [done|].
    apply lookup_insert_Some in H as [[_ <-]|[_ H]]; [done|].
    by rewrite lookup_empty in H.
  - eapply consistent_effect; [|done].
    by apply perform_effect; [apply reachable_well_formed|].
Qed.

(** C8: on every page reachable from page load by any sequence of user
    actions (typing, send, and edit, save, cancel, delete on any shown
    entry), every entry that exists satisfies
    [text_box.disabled = edit_button.visible = delete_button.visible
     = not save_button.visible = not cancel_button.visible];
    it is in editing mode (text field enabled, Save and Cancel visible, Edit
    and Delete hidden) exactly when it is not read-only, and in viewing mode
    exactly when it is read-only. *)
Theorem mode_invariant (σ : App) :
  reachable σ →
  ∀ r e, store σ !! r = Some e →
    consistent e ∧
    (Editing e ↔ disabled (text_box e) = false) ∧
    (Viewing e ↔ disabled (text_box e) = true).
Proof.
  intros Hreach r e He.
  pose proof (reachable_consistent σ Hreach r e He) as Hc.
  split; [done|]. by apply consistent_modes.
Qed.

Lemma mode_invariant_witness :
  let e := edited (MessageEntry_init "Setting"
                     "Welcome to the Chat-Tinker GUI!" msg_hist_column 0) in
  consistent e ∧
  (Editing e ↔ disabled (text_box e) = false) ∧
  (Viewing e ↔ disabled (text_box e) = true).
Proof.
  intros e.
  apply (mode_invariant
           (with_focused (focus_text_box 0)
              (with_store (insert 0 e) loaded))
           (reachable_step loaded (ClickEdit 0) _
              (reachable_load loaded STMainPage_init_ok)
              (list_elem_of_here 0 [1])
              ltac:(vm_compute; reflexivity))
           0 e).
  vm_compute. reflexivity.
Defined.

(** ** No operation fails *)

(** C9: on every page reachable from page load by user actions, every
    operation returns normally: send, and edit, save, cancel and delete on
    any entry of the message list, and so does every user action on a shown
    row; the page it leaves is reachable again.  In particular delete never
    fails there. *)
Theorem operations_always_succeed (σ : App) :
  reachable σ →
  (∃ σ', exec on_send σ = Ok σ' ∧ reachable σ') ∧
  (∀ r, r ∈ msg_hist σ →
     (∃ σ', exec (on_edit r) σ = Ok σ' ∧ reachable σ') ∧
     (∃ σ', exec (on_save r) σ = Ok σ' ∧ reachable σ') ∧
     (∃ σ', exec (on_cancel r) σ = Ok σ' ∧ reachable σ') ∧
     (∃ σ', exec (on_delete r) σ = Ok σ' ∧ reachable σ')) ∧
  (∀ a, on_screen σ a → ∃ σ', exec (perform a) σ = Ok σ' ∧ reachable σ').
Proof.
  intros Hreach. pose proof (reachable_well_formed _ Hreach) as Hwf.
  assert (∀ a, on_screen σ a →
               ∃ σ', exec (perform a) σ = Ok σ' ∧ reachable σ') as Hact.
  { intros a Ha. destruct (perform_progress σ a Hwf Ha) as [σ' Hexec].
    exists σ'. split; [done|]. by eapply reachable_step. }
  split_and!; [| |done].
  - destruct (Hact ClickSend I) as (σ' & Hexec & Hr). exists σ'.
    split; [|done].
    by rewrite <- (exec_ext _ _ _ (click_send_is_on_send σ Hwf)).
  - intros r Hr.
    destruct (click_is_handler σ r Hwf Hr) as (H1 & H2 & H3 & H4).
    split_and!.
    + destruct (Hact (ClickEdit r) Hr) as (σ' & Hexec & Hr').
      exists σ'. by rewrite <- (exec_ext _ _ _ H1).
    + destruct (Hact (ClickSave r) Hr) as (σ' & Hexec & Hr').
      exists σ'. by rewrite <- (exec_ext _ _ _ H2).
    + destruct (Hact (ClickCancel r) Hr) as (σ' & Hexec & Hr').
      exists σ'. by rewrite <- (exec_ext _ _ _ H3).
    + destruct (Hact (ClickDelete r) Hr) as (σ' & Hexec & Hr').
      exists σ'. by rewrite <- (exec_ext _ _ _ H4).
Qed.

Lemma operations_always_succeed_witness :
  (∃ σ', exec on_send loaded = Ok σ' ∧ reachable σ') ∧
  (∀ r, r ∈ msg_hist loaded →
     (∃ σ', exec (on_edit r) loaded = Ok σ' ∧ reachable σ') ∧
     (∃ σ', exec (on_save r) loaded = Ok σ' ∧ reachable σ') ∧
     (∃ σ', exec (on_cancel r) loaded = Ok σ' ∧ reachable σ') ∧
     (∃ σ', exec (on_delete r) loaded = Ok σ' ∧ reachable σ')) ∧
  (∀ a, on_screen loaded a →
     ∃ σ', exec (perform a) loaded = Ok σ' ∧ reachable σ').
Proof.
  apply (operations_always_succeed loaded).
  apply reachable_load. vm_compute. reflexivity.
Defined.

(** The exception of [list.remove] is out of the user's reach: an entry that
    was deleted from a reachable page is no longer on screen, and only a
    second [on_delete] on it would raise. *)
Lemma deleted_entry_off_screen σ r σ' :
  reachable σ → exec (on_delete r) σ = Ok σ' → r ∉ msg_hist σ'.
Proof.
  intros Hreach Hexec. pose proof (reachable_well_formed _ Hreach) as Hwf.
  apply exec_inv in Hexec as [[] Hdel]. unfold on_delete in Hdel.
  apply bind_inv in Hdel as (e & σ1 & [He ->]%read_inv & Hdel).
  destruct (me_parent e). unfold msg_hist_remove, mbind, M_bind, get in Hdel.
  destruct (list_remove r (msg_hist σ)) as [l|] eqn:Hl; [|done].
  simpl in Hdel. injection Hdel as <-. simpl.
  eapply list_remove_NoDup; [apply Hwf|done].
Qed.

Example delete_twice_raises :
  exec (on_delete 0;; on_delete 0) loaded = Raise ValueError.
Proof. vm_compute. reflexivity. Qed.

(** ** Frame *)

Lemma same_fixed_attributes_refl e : same_fixed_attributes e e.
Proof. done. Qed.

Lemma same_fixed_attributes_trans e1 e2 e3 :
  same_fixed_attributes e1 e2 → same_fixed_attributes e2 e3 →
  same_fixed_attributes e1 e3.
Proof.
  unfold same_fixed_attributes. intros H12 H23.
  destruct_and!. split_and!; congruence.
Qed.

Lemma exec_bind_inv {A B} (m : M A) (k : A → M B) σ σ' :
  exec (m ≫= k) σ = Ok σ' →
  ∃ a σ1, m σ = Ok (a, σ1) ∧ exec (k a) σ1 = Ok σ'.
Proof.
  unfold exec, mbind, M_bind. destruct (m σ) as [[a σ1]|x]; [|done].
  intros H. by exists a, σ1.
Qed.

Lemma assign_inv σ r f σ' :
  assign r f σ = Ok (tt, σ') → is_Some (store σ !! r).
Proof.
  unfold assign. intros (e & σ1 & [He _]%read_inv & _)%bind_inv. by exists e.
Qed.

Lemma handler_self_live h σ σ' r :
  self_of h = Some r → exec (call h) σ = Ok σ' → is_Some (store σ !! r).
Proof.
  destruct h as [s|s|s|s|]; simpl; intros [= ->] Hexec; [| | |].
  - unfold on_edit in Hexec.
    apply exec_bind_inv in Hexec as ([] & σ1 & H%assign_inv & _). done.
  - unfold on_save in Hexec.
    apply exec_bind_inv in Hexec as (e & σ1 & [He _]%read_inv & _). by exists e.
  - unfold on_cancel in Hexec.
    apply exec_bind_inv in Hexec as (e & σ1 & [He _]%read_inv & _). by exists e.
  - unfold on_delete in Hexec.
    apply exec_bind_inv in Hexec as (e & σ1 & [He _]%read_inv & _). by exists e.
Qed.

Lemma on_delete_store σ r σ' :
  exec (on_delete r) σ = Ok σ' → store σ' = store σ.
Proof.
  unfold on_delete. intros (e & σ1 & [He ->]%read_inv & Hexec)%exec_bind_inv.
  destruct (me_parent e). unfold msg_hist_remove in Hexec.
  unfold exec, mbind, M_bind, get in Hexec.
  destruct (list_remove r (msg_hist σ)); [|done]. simpl in Hexec.
  by injection Hexec as <-.
Qed.

Lemma call_frame h σ σ' r e :
  exec (call h) σ = Ok σ' →
  store σ !! r = Some e →
  ∃ e', store σ' !! r = Some e' ∧ same_fixed_attributes e e' ∧
        (self_of h ≠ Some r → e' = e).
Proof.
  intros Hexec He.
  destruct h as [s|s|s|s|]; simpl in Hexec.
  - destruct (handler_self_live (on_edit_of s) σ σ' s eq_refl Hexec) as [es Hes].
    rewrite (exec_det _ _ _ _ _ (on_edit_ok _ _ _ Hes) Hexec).
    destruct (decide (s = r)) as [->|Hne].
    + assert (es = e) as -> by congruence.
      exists (edited e). simpl. rewrite lookup_insert_eq. by split_and!.
    + exists e. simpl. rewrite lookup_insert_ne by done.
      by split_and!.
  - destruct (handler_self_live (on_save_of s) σ σ' s eq_refl Hexec) as [es Hes].
    rewrite (exec_det _ _ _ _ _ (on_save_ok _ _ _ Hes) Hexec).
    destruct (decide (s = r)) as [->|Hne].
    + assert (es = e) as -> by congruence.
      exists (saved e). simpl. rewrite lookup_insert_eq. by split_and!.
    + exists e. simpl. rewrite lookup_insert_ne by done.
      by split_and!.
  - destruct (handler_self_live (on_cancel_of s) σ σ' s eq_refl Hexec) as [es Hes].
    rewrite (exec_det _ _ _ _ _ (on_cancel_ok _ _ _ Hes) Hexec).
    destruct (decide (s = r)) as [->|Hne].
    + assert (es = e) as -> by congruence.
      exists (cancelled e). simpl. rewrite lookup_insert_eq. by split_and!.
    + exists e. simpl. rewrite lookup_insert_ne by done.
      by split_and!.
  - exists e. rewrite (on_delete_store _ _ _ Hexec). by split_and!.
  - rewrite (exec_det _ _ _ _ _ (on_send_ok σ) Hexec).
    destruct (on_send_fresh σ) as (Hyou & Hai & _). cbv zeta in *.
    exists e. simpl. split_and!; [|done..].
    rewrite !lookup_insert_ne; [done|intros Heq; subst r; congruence..].
Qed.

(** C10: the author of an entry is the one given to the constructor, and no
    sequence of edit(), save(), cancel(), delete() and send calls changes it:
    every entry that existed before still exists after, with the same author
    and the same other fixed attributes (parent, label, button texts and
    callbacks); the handlers assign only the saved content, the displayed
    value, [disabled] and [visible], and an entry none of the calls is
    bound to is left exactly as it was. *)
Theorem author_is_never_changed
  (hs : list Handler) (σ σ' : App) (r : ref) (e : MessageEntry) :
  exec (calls hs) σ = Ok σ' →
  store σ !! r = Some e →
  (∃ e', store σ' !! r = Some e' ∧
         author e' = author e ∧
         same_fixed_attributes e e' ∧
         (Some r ∉ self_of <$> hs → e' = e)) ∧
  (∀ a m p r0, author (MessageEntry_init a m p r0) = a).
Proof.
  intros Hexec He. split; [|done].
  revert σ e Hexec He. induction hs as [|h hs IH]; intros σ e Hexec He.
  - injection Hexec as <-. exists e. by split_and!.
  - simpl in Hexec.
    apply exec_bind_inv in Hexec as ([] & σ1 & Hh & Hexec).
    destruct (call_frame h σ σ1 r e (exec_ok _ _ _ _ Hh) He)
      as (e1 & He1 & Hfix1 & Hsame1).
    destruct (IH σ1 e1 Hexec He1) as (e' & He' & _ & Hfix & Hsame).
    exists e'. split_and!; [done| | |].
    + destruct Hfix as [-> _]. by destruct Hfix1 as [-> _].
    + by eapply same_fixed_attributes_trans.
    + rewrite fmap_cons, not_elem_of_cons. intros [Hne Hnin].
      rewrite (Hsame Hnin). apply Hsame1. congruence.
Qed.

Lemma author_is_never_changed_witness :
  let e := MessageEntry_init "Setting" "Welcome to the Chat-Tinker GUI!"
             msg_hist_column 0 in
  let σ' := with_focused (focus_text_box 0)
              (with_msg_hist (λ _, [1])
                 (with_store (insert 0 (cancelled (edited e))) loaded)) in
  (∃ e', store σ' !! 0 = Some e' ∧
         author e' = author e ∧
         same_fixed_attributes e e' ∧
         (Some 0 ∉ self_of <$> [on_edit_of 0; on_cancel_of 0; on_delete_of 0]
          → e' = e)) ∧
  (∀ a m p r0, author (MessageEntry_init a m p r0) = a).
Proof.
  intros e σ'.
  apply (author_is_never_changed
           [on_edit_of 0; on_cancel_of 0; on_delete_of 0] loaded σ' 0 e).
  - vm_compute. reflexivity.
  - vm_compute. reflexivity.
Defined.

(** * Further properties of the handlers *)

(** ** Deleting twice *)

(** X1: on a reachable page, once [on_delete] has removed an entry, a second
    [on_delete] on the same entry raises [ValueError]: [list.remove] no
    longer finds it. *)
Theorem second_delete_raises (σ σ' : App) (r : ref) :
  reachable σ →
  exec (on_delete r) σ = Ok σ' →
  exec (on_delete r) σ' = Raise ValueError.
Proof.
  intros Hreach Hexec.
  pose proof (deleted_entry_off_screen σ r σ' Hreach Hexec) as Hoff.
  pose proof (on_delete_store σ r σ' Hexec) as Hstore.
  destruct (handler_self_live (on_delete_of r) σ σ' r eq_refl Hexec) as [e He].
  rewrite <- Hstore in He.
  unfold exec. by rewrite (on_delete_absent σ' r e He Hoff).
Qed.

Lemma second_delete_raises_witness :
  exec (on_delete 0) (with_msg_hist (λ _, [1]) loaded) = Raise ValueError.
Proof.
  apply (second_delete_raises loaded (with_msg_hist (λ _, [1]) loaded) 0).
  - apply reachable_load. vm_compute. reflexivity.
  - vm_compute. reflexivity.
Defined.

(** ** Invariants of the page *)

(** X2: on every page reachable from load by user actions, no entry is shown
    twice, every row is a live entry object, the four buttons of every entry
    still call the handlers of that very entry, and the Send button calls
    [on_send]. *)
Theorem page_structure_invariant (σ : App) :
  reachable σ →
  NoDup (msg_hist σ) ∧
  (∀ r, r ∈ msg_hist σ → ∃ e, store σ !! r = Some e) ∧
  (∀ r e, store σ !! r = Some e →
     on_click (edit_button e) = on_edit_of r ∧
     on_click (save_button e) = on_save_of r ∧
     on_click (cancel_button e) = on_cancel_of r ∧
     on_click (delete_button e) = on_delete_of r) ∧
  on_click (send_button σ) = on_send_of.
Proof.
  intros [Hlive Hnd Hb Hs]%reachable_well_formed. split_and!; try done.
Qed.

Lemma page_structure_invariant_witness :
  let σ := with_msg_hist (λ _, [1]) loaded in
  NoDup (msg_hist σ) ∧
  (∀ r, r ∈ msg_hist σ → ∃ e, store σ !! r = Some e) ∧
  (∀ r e, store σ !! r = Some e →
     on_click (edit_button e) = on_edit_of r ∧
     on_click (save_button e) = on_save_of r ∧
     on_click (cancel_button e) = on_cancel_of r ∧
     on_click (delete_button e) = on_delete_of r) ∧
  on_click (send_button σ) = on_send_of.
Proof.
  intros σ. apply (page_structure_invariant σ).
  apply (reachable_step loaded (ClickDelete 0) σ).
  - apply reachable_load. vm_compute. reflexivity.
  - simpl. apply list_elem_of_here.
  - vm_compute. reflexivity.
Defined.

Lemma labelled_init a m p r :
  a ∈ ["Setting"; "AI"; "You"] → labelled (MessageEntry_init a m p r).
Proof. intros Ha. by split_and!. Qed.

Lemma labelled_same_fixed e e' :
  same_fixed_attributes e e' → labelled e → labelled e'.
Proof.
  unfold same_fixed_attributes, labelled. intros Hfix Hl. destruct_and!.
  simplify_eq. split_and!; congruence.
Qed.

Lemma labelled_effect σ a σ' :
  effect σ a σ' →
  (∀ r e, store σ !! r = Some e → labelled e) →
  ∀ r e, store σ' !! r = Some e → labelled e.
Proof.
  intros Heff Hall.
  destruct Heff as [s|σ' Hs|r0 s e0 He|r0 e0 He|r0 e0 He|r0 e0 He|r0 e0 l He Hl];
    simpl; try done.
  - rewrite on_send_ok in Hs. cbv zeta in Hs. injection Hs as <-. simpl.
    intros r e [[_ <-]|[_ H]]%lookup_insert_Some.
    { apply labelled_init. set_solver. }
    apply lookup_insert_Some in H as [[_ <-]|[_ H]]; [|by eapply Hall].
    apply labelled_init. set_solver.
  - intros r e [[_ <-]|[_ H]]%lookup_insert_Some; [|by eapply Hall].
    eapply labelled_same_fixed; [|by eapply Hall]. done.
  - intros r e [[_ <-]|[_ H]]%lookup_insert_Some; [|by eapply Hall].
    eapply labelled_same_fixed; [|by eapply Hall]. done.
  - intros r e [[_ <-]|[_ H]]%lookup_insert_Some; [|by eapply Hall].
    eapply labelled_same_fixed; [|by eapply Hall]. done.
  - intros r e [[_ <-]|[_ H]]%lookup_insert_Some; [|by eapply Hall].
    eapply labelled_same_fixed; [|by eapply Hall]. done.
Qed.

(** X3: on every reachable page, every entry's text field is labelled with
    the entry's author, the author is one of "Setting", "AI" and "You", the
    text field is multiline and expanding, and the buttons read "Edit",
    "Save", "Cancel" and "Delete". *)
Theorem labelling_invariant (σ : App) :
  reachable σ →
  ∀ r e, store σ !! r = Some e →
    label (text_box e) = author e ∧
    author e ∈ ["Setting"; "AI"; "You"] ∧
    multiline (text_box e) = true ∧ expand (text_box e) = true ∧
    text (edit_button e) = "Edit" ∧ text (save_button e) = "Save" ∧
    text (cancel_button e) = "Cancel" ∧ text (delete_button e) = "Delete".
Proof.
  induction 1 as [σ Hload|σ a σ' Hreach IH _ Hexec].
  - rewrite STMainPage_init_ok in Hload. injection Hload as <-. simpl.
    intros r e [[_ <-]|[_ H]]%lookup_insert_Some.
    { apply labelled_init. set_solver. }
    apply lookup_insert_Some in H as [[_ <-]|[_ H]].
    { apply labelled_init. set_solver. }
    by rewrite lookup_empty in H.
  - eapply labelled_effect; [|exact IH].
    by apply perform_effect; [apply reachable_well_formed|].
Qed.

Lemma labelling_invariant_witness :
  let e := MessageEntry_init "AI" "Type 'exit' to exit the application."
             msg_hist_column 1 in
  label (text_box e) = author e ∧
  author e ∈ ["Setting"; "AI"; "You"] ∧
  multiline (text_box e) = true ∧ expand (text_box e) = true ∧
  text (edit_button e) = "Edit" ∧ text (save_button e) = "Save" ∧
  text (cancel_button e) = "Cancel" ∧ text (delete_button e) = "Delete".
Proof.
  intros e. apply (labelling_invariant loaded) with (r := 1).
  - apply reachable_load. vm_compute. reflexivity.
  - vm_compute. reflexivity.
Defined.

(** ** How the handlers compose *)

Lemma read_dangling {B} σ r (k : MessageEntry → M B) :
  store σ !! r = None → (read r ≫= k) σ = Raise DanglingReference.
Proof. intros H. unfold mbind, M_bind, read. by rewrite H. Qed.

Lemma assign_dangling {B} σ r f (k : M B) :
  store σ !! r = None → (assign r f;; k) σ = Raise DanglingReference.
Proof.
  intros H. apply bind_raise. unfold assign. by apply read_dangling.
Qed.

(** X4: [on_edit], [on_save] and [on_cancel] are idempotent: calling one of
    them twice in a row leaves the page exactly as calling it once; the code
    needs no guard against a repeated click. *)
Theorem mode_handlers_idempotent (σ : App) (r : ref) :
  exec (on_edit r;; on_edit r) σ = exec (on_edit r) σ ∧
  exec (on_save r;; on_save r) σ = exec (on_save r) σ ∧
  exec (on_cancel r;; on_cancel r) σ = exec (on_cancel r) σ.
Proof.
  destruct (store σ !! r) as [e|] eqn:He.
  - split_and!.
    + rewrite (exec_ok _ _ tt _ (on_edit_ok _ _ _ He)).
      apply (exec_ok _ _ tt).
      rewrite (bind_ok _ _ _ _ _ (on_edit_ok _ _ _ He)).
      assert (store (with_focused (focus_text_box r)
                       (with_store (insert r (edited e)) σ)) !! r
              = Some (edited e)) as H1 by apply lookup_insert_eq.
      rewrite (on_edit_ok _ _ _ H1). unfold with_focused, with_store. simpl.
      by rewrite insert_insert_eq.
    + rewrite (exec_ok _ _ tt _ (on_save_ok _ _ _ He)).
      apply (exec_ok _ _ tt).
      rewrite (bind_ok _ _ _ _ _ (on_save_ok _ _ _ He)).
      rewrite (on_save_ok _ _ _ (store_assigned _ _ _)).
      by rewrite with_store_insert_insert.
    + rewrite (exec_ok _ _ tt _ (on_cancel_ok _ _ _ He)).
      apply (exec_ok _ _ tt).
      rewrite (bind_ok _ _ _ _ _ (on_cancel_ok _ _ _ He)).
      rewrite (on_cancel_ok _ _ _ (store_assigned _ _ _)).
      by rewrite with_store_insert_insert.
  - assert (on_edit r σ = Raise DanglingReference) as H1
      by by apply assign_dangling.
    assert (on_save r σ = Raise DanglingReference) as H2
      by by apply read_dangling.
    assert (on_cancel r σ = Raise DanglingReference) as H3
      by by apply read_dangling.
    unfold exec.
    by rewrite (bind_raise _ _ _ _ H1), (bind_raise _ _ _ _ H2),
      (bind_raise _ _ _ _ H3), H1, H2, H3.
Qed.

(** What a handler call leaves in the store for an entry that existed. *)
Lemma call_entry h σ σ' r e :
  exec (call h) σ = Ok σ' →
  store σ !! r = Some e →
  store σ' !! r = Some (handled h r e).
Proof.
  intros Hexec He.
  destruct h as [s|s|s|s|]; simpl in *.
  - destruct (handler_self_live (on_edit_of s) σ σ' s eq_refl Hexec) as [es Hes].
    rewrite (exec_det _ _ _ _ _ (on_edit_ok _ _ _ Hes) Hexec). simpl.
    destruct (decide (s = r)) as [->|Hne].
    + rewrite lookup_insert_eq. congruence.
    + by rewrite lookup_insert_ne.
  - destruct (handler_self_live (on_save_of s) σ σ' s eq_refl Hexec) as [es Hes].
    rewrite (exec_det _ _ _ _ _ (on_save_ok _ _ _ Hes) Hexec). simpl.
    destruct (decide (s = r)) as [->|Hne].
    + rewrite lookup_insert_eq. congruence.
    + by rewrite lookup_insert_ne.
  - destruct (handler_self_live (on_cancel_of s) σ σ' s eq_refl Hexec) as [es Hes].
    rewrite (exec_det _ _ _ _ _ (on_cancel_ok _ _ _ Hes) Hexec). simpl.
    destruct (decide (s = r)) as [->|Hne].
    + rewrite lookup_insert_eq. congruence.
    + by rewrite lookup_insert_ne.
  - by rewrite (on_delete_store _ _ _ Hexec).
  - rewrite (exec_det _ _ _ _ _ (on_send_ok σ) Hexec).
    destruct (on_send_fresh σ) as (Hyou & Hai & _). cbv zeta in *. simpl.
    rewrite !lookup_insert_ne; [done|intros Heq; subst r; congruence..].
Qed.

(** X5: the two copies of the content move only by save and cancel.  After
    any handler call, the saved content of an entry that existed is the text
    it displayed if the call was [on_save] on that entry and is unchanged
    otherwise; the displayed text is the saved content if the call was
    [on_cancel] on that entry and is unchanged otherwise.  In particular
    edit, delete and send never change either. *)
Theorem content_moves_only_by_save_and_cancel
  (h : Handler) (σ σ' : App) (r : ref) (e : MessageEntry) :
  exec (call h) σ = Ok σ' →
  store σ !! r = Some e →
  ∃ e', store σ' !! r = Some e' ∧
    saved_content e' =
      (if decide (h = on_save_of r) then value (text_box e)
       else saved_content e) ∧
    value (text_box e') =
      (if decide (h = on_cancel_of r) then saved_content e
       else value (text_box e)).
Proof.
  intros Hexec He. exists (handled h r e).
  split; [by eapply call_entry|].
  destruct h as [s|s|s|s|]; simpl;
    try destruct (decide (s = r)) as [->|Hne];
    repeat case_decide; simplify_eq; done.
Qed.

Lemma content_moves_only_by_save_and_cancel_witness :
  let e := with_text_box (set_value "draft")
             (edited (MessageEntry_init "Setting"
                        "Welcome to the Chat-Tinker GUI!" msg_hist_column 0)) in
  let σ := with_store (insert 0 e) loaded in
  ∃ e', store (with_store (insert 0 (saved e)) σ) !! 0 = Some e' ∧
    saved_content e' =
      (if decide (on_save_of 0 = on_save_of 0) then value (text_box e)
       else saved_content e) ∧
    value (text_box e') =
      (if decide (on_save_of 0 = on_cancel_of 0) then saved_content e
       else value (text_box e)).
Proof.
  intros e σ.
  apply (content_moves_only_by_save_and_cancel (on_save_of 0) σ
           (with_store (insert 0 (saved e)) σ) 0 e).
  - vm_compute. reflexivity.
  - vm_compute. reflexivity.
Defined.

(** X6: what the handlers leave alone on the page.  None of them replaces
    the Send button; only [on_send] writes the input box, so text typed there
    survives edit, save, cancel and delete; [on_edit], [on_save] and
    [on_cancel] never add, remove or reorder rows; [on_delete] changes no
    entry object; and [on_send] keeps every row it found, in place. *)
Theorem handlers_page_frame (h : Handler) (σ σ' : App) :
  exec (call h) σ = Ok σ' →
  send_button σ' = send_button σ ∧
  (h ≠ on_send_of → input_box σ' = input_box σ) ∧
  match h with
  | on_edit_of _ | on_save_of _ | on_cancel_of _ => msg_hist σ' = msg_hist σ
  | on_delete_of _ => store σ' = store σ ∧ sublist (msg_hist σ') (msg_hist σ)
  | on_send_of => msg_hist σ `prefix_of` msg_hist σ'
  end.
Proof.
  intros Hexec. destruct h as [s|s|s|s|]; simpl in Hexec.
  - destruct (handler_self_live (on_edit_of s) σ σ' s eq_refl Hexec) as [es Hes].
    by rewrite (exec_det _ _ _ _ _ (on_edit_ok _ _ _ Hes) Hexec).
  - destruct (handler_self_live (on_save_of s) σ σ' s eq_refl Hexec) as [es Hes].
    by rewrite (exec_det _ _ _ _ _ (on_save_ok _ _ _ Hes) Hexec).
  - destruct (handler_self_live (on_cancel_of s) σ σ' s eq_refl Hexec) as [es Hes].
    by rewrite (exec_det _ _ _ _ _ (on_cancel_ok _ _ _ Hes) Hexec).
  - destruct (handler_self_live (on_delete_of s) σ σ' s eq_refl Hexec) as [es Hes].
    destruct (list_remove s (msg_hist σ)) as [l|] eqn:Hl.
    + rewrite (exec_det _ _ _ _ _ (on_delete_ok _ _ _ _ Hes Hl) Hexec).
      split_and!; try done. simpl. by eapply list_remove_sublist.
    + assert (s ∉ msg_hist σ) as Hn.
      { intros Hin. destruct (list_remove_elem _ _ Hin) as (?&?&_&_&?).
        congruence. }
      unfold exec in Hexec. by rewrite (on_delete_absent _ _ _ Hes Hn) in Hexec.
  - rewrite (exec_det _ _ _ _ _ (on_send_ok σ) Hexec). cbv zeta.
    split_and!; try done. simpl. rewrite <- app_assoc. by eexists.
Qed.

Lemma handlers_page_frame_witness :
  let σ := with_input_box (set_value "not sent yet") loaded in
  let σ' := with_msg_hist (λ _, [0]) σ in
  send_button σ' = send_button σ ∧
  (on_delete_of 1 ≠ on_send_of → input_box σ' = input_box σ) ∧
  store σ' = store σ ∧ sublist (msg_hist σ') (msg_hist σ).
Proof.
  intros σ σ'. apply (handlers_page_frame (on_delete_of 1) σ σ').
  vm_compute. reflexivity.
Defined.

(** X7: editing is not exclusive.  [on_edit] on one entry does not end the
    edit of another: on a reachable page, after [on_edit] on two different
    entries of the message list both are in editing mode, and the focus is
    in the text box of the second. *)
Theorem editing_is_not_exclusive
  (σ : App) (r1 r2 : ref) (e1 e2 : MessageEntry) :
  reachable σ →
  r1 ∈ msg_hist σ →
  r2 ∈ msg_hist σ →
  store σ !! r1 = Some e1 →
  store σ !! r2 = Some e2 →
  r1 ≠ r2 →
  ∃ σ' e1' e2',
    exec (on_edit r1;; on_edit r2) σ = Ok σ' ∧
    store σ' !! r1 = Some e1' ∧ store σ' !! r2 = Some e2' ∧
    Editing e1' ∧ Editing e2' ∧
    focused σ' = Some (focus_text_box r2).
Proof.
  intros _ _ _ H1 H2 Hne. eexists _, (edited e1), (edited e2). split_and!.
  - apply (exec_ok _ _ tt).
    rewrite (bind_ok _ _ _ _ _ (on_edit_ok _ _ _ H1)).
    apply on_edit_ok. simpl. by rewrite lookup_insert_ne.
  - simpl. rewrite lookup_insert_ne by done. apply lookup_insert_eq.
  - simpl. apply lookup_insert_eq.
  - done.
  - done.
  - done.
Qed.

Lemma editing_is_not_exclusive_witness :
  ∃ σ' e1' e2',
    exec (on_edit 0;; on_edit 1) loaded = Ok σ' ∧
    store σ' !! 0 = Some e1' ∧ store σ' !! 1 = Some e2' ∧
    Editing e1' ∧ Editing e2' ∧
    focused σ' = Some (focus_text_box 1).
Proof.
  apply (editing_is_not_exclusive loaded 0 1
           (MessageEntry_init "Setting" "Welcome to the Chat-Tinker GUI!"
              msg_hist_column 0)
           (MessageEntry_init "AI" "Type 'exit' to exit the application."
              msg_hist_column 1)).
  - apply reachable_load. vm_compute. reflexivity.
  - simpl. apply list_elem_of_here.
  - simpl. apply list_elem_of_further, list_elem_of_here.
  - vm_compute. reflexivity.
  - vm_compute. reflexivity.
  - lia.
Defined.

(** X8: outside an edit, save and cancel do nothing.  On a reachable page,
    on an entry of the message list that is in viewing mode and displays its
    saved content, [on_save] and [on_cancel] return and leave the whole page
    as it was. *)
Theorem save_and_cancel_noop_when_viewing
  (σ : App) (r : ref) (e : MessageEntry) :
  reachable σ →
  r ∈ msg_hist σ →
  store σ !! r = Some e →
  Viewing e →
  value (text_box e) = saved_content e →
  exec (on_save r) σ = Ok σ ∧ exec (on_cancel r) σ = Ok σ.
Proof.
  intros _ _ He (Hd & Hed & Hdel & Hsv & Hc) Hval.
  assert (saved e = e ∧ cancelled e = e) as [Hs Hcn].
  { destruct e as [a sc p [lb v ml d ex] [t1 c1 v1] [t2 c2 v2] [t3 c3 v3]
                     [t4 c4 v4]].
    simpl in *. by subst. }
  split.
  - rewrite (exec_ok _ _ tt _ (on_save_ok _ _ _ He)), Hs.
    by rewrite with_store_insert_id.
  - rewrite (exec_ok _ _ tt _ (on_cancel_ok _ _ _ He)), Hcn.
    by rewrite with_store_insert_id.
Qed.

Lemma save_and_cancel_noop_when_viewing_witness :
  exec (on_save 0) loaded = Ok loaded ∧ exec (on_cancel 0) loaded = Ok loaded.
Proof.
  apply (save_and_cancel_noop_when_viewing loaded 0
           (MessageEntry_init "Setting" "Welcome to the Chat-Tinker GUI!"
              msg_hist_column 0)).
  - apply reachable_load. vm_compute. reflexivity.
  - simpl. apply list_elem_of_here.
  - vm_compute. reflexivity.
  - vm_compute. repeat split.
  - reflexivity.
Defined.

(** ** The transcript *)

Lemma on_send_history σ :
  (∀ r, r ∈ msg_hist σ → is_Some (store σ !! r)) →
  ∃ σ', on_send σ = Ok (tt, σ') ∧
    history σ' = history σ ++ exchange (value (input_box σ)) ∧
    value (input_box σ') = "" ∧
    (∀ r, r ∈ msg_hist σ' → is_Some (store σ' !! r)).
Proof.
  intros Hlive.
  destruct (on_send_fresh σ) as (Hyou & Hai & Hne).
  pose proof (on_send_ok σ) as Hsend. cbv zeta in *.
  set (you := fresh (dom (store σ))) in *.
  set (e_you := MessageEntry_init "You" _ _ you) in *.
  set (ai := fresh (dom (<[you:=e_you]> (store σ)))) in *.
  set (e_ai := MessageEntry_init "AI" _ _ ai) in *.
  assert (∀ r e, store σ !! r = Some e →
                 <[ai:=e_ai]> (<[you:=e_you]> (store σ)) !! r = Some e) as Hold.
  { intros r e He. rewrite !lookup_insert_ne; [done|..]; intros ->; congruence. }
  eexists. split; [exact Hsend|]. split_and!.
  - unfold history, rows. simpl. rewrite !fmap_app. simpl.
    rewrite lookup_insert_ne by done. rewrite !lookup_insert_eq. simpl.
    rewrite <- app_assoc. f_equal.
    rewrite <- !list_fmap_compose. apply list_fmap_ext. intros i r Hr. simpl.
    destruct (Hlive r) as [e He]; [by eapply list_elem_of_lookup_2|].
    by rewrite He, (Hold _ _ He).
  - done.
  - simpl. intros r Hr. rewrite !lookup_insert_is_Some'.
    apply elem_of_app in Hr as [Hr|Hr%list_elem_of_singleton]; [|by left].
    apply elem_of_app in Hr as [Hr|Hr%list_elem_of_singleton];
      [|by right; left].
    right. right. by apply Hlive.
Qed.

(** X9: a chat of any length.  From a page whose rows are live entries,
    typing and sending the messages [ss] one after another returns and
    appends, for each message in order, a "You" row with that text followed
    by an "AI" row "Processing..."; the rows that were there stay on top,
    unchanged. *)
Theorem send_all_transcript (ss : list string) (σ : App) :
  (∀ r, r ∈ msg_hist σ → is_Some (store σ !! r)) →
  ∃ σ', exec (send_all ss) σ = Ok σ' ∧
    history σ' = history σ ++ flat_map exchange ss.
Proof.
  revert σ. induction ss as [|s ss IH]; intros σ Hlive.
  - exists σ. split; [done|]. simpl. by rewrite app_nil_r.
  - destruct (on_send_history (with_input_box (set_value s) σ) Hlive)
      as (σ1 & Hsend & Hhist & _ & Hlive1).
    destruct (IH σ1 Hlive1) as (σ' & Hexec & Hhist').
    exists σ'. split.
    + simpl. unfold exec, type_input_box. rewrite modify_seq.
      by rewrite (bind_ok _ _ _ _ _ Hsend).
    + rewrite Hhist', Hhist. simpl. by rewrite <- app_assoc.
Qed.

Lemma send_all_transcript_witness :
  ∃ σ', exec (send_all ["hi"; ""; "bye"]) loaded = Ok σ' ∧
    history σ' = history loaded ++ flat_map exchange ["hi"; ""; "bye"].
Proof.
  apply (send_all_transcript ["hi"; ""; "bye"] loaded).
  intros r Hr.
  apply elem_of_cons in Hr as [->|Hr%list_elem_of_singleton]; [|subst r];
    eexists; vm_compute; reflexivity.
Defined.

(** X10: send does not check its input.  Calling [on_send] twice in a row,
    with no typing in between, sends the text of the input box and then an
    empty message: the first call has cleared the box. *)
Theorem second_send_is_empty (σ : App) :
  (∀ r, r ∈ msg_hist σ → is_Some (store σ !! r)) →
  ∃ σ', exec (on_send;; on_send) σ = Ok σ' ∧
    history σ' =
      history σ ++ exchange (value (input_box σ)) ++ exchange "".
Proof.
  intros Hlive.
  destruct (on_send_history σ Hlive) as (σ1 & Hsend & Hhist & Hval & Hlive1).
  destruct (on_send_history σ1 Hlive1) as (σ' & Hsend' & Hhist' & _ & _).
  exists σ'. split.
  - apply (exec_ok _ _ tt). by rewrite (bind_ok _ _ _ _ _ Hsend).
  - by rewrite Hhist', Hhist, Hval, <- app_assoc.
Qed.

Lemma second_send_is_empty_witness :
  let σ := with_input_box (set_value "hello") loaded in
  ∃ σ', exec (on_send;; on_send) σ = Ok σ' ∧
    history σ' = history σ ++ exchange "hello" ++ exchange "".
Proof.
  intros σ. apply (second_send_is_empty σ).
  intros r Hr.
  apply elem_of_cons in Hr as [->|Hr%list_elem_of_singleton]; [|subst r];
    eexists; vm_compute; reflexivity.
Defined.

Lemma run_length acts σ σ' :
  well_formed σ →
  exec (run acts) σ = Ok σ' →
  length (msg_hist σ') + length (List.filter is_delete acts) =
  length (msg_hist σ) + 2 * length (List.filter is_send acts).
Proof.
  revert σ. induction acts as [|a acts IH]; intros σ Hwf Hexec.
  - injection Hexec as <-. simpl. lia.
  - simpl in Hexec.
    apply exec_bind_inv in Hexec as ([] & σ1 & Ha & Hexec).
    pose proof (perform_effect σ a σ1 Hwf (exec_ok _ _ _ _ Ha)) as Heff.
    pose proof (well_formed_effect _ _ _ Hwf Heff) as Hwf1.
    specialize (IH σ1 Hwf1 Hexec).
    destruct Heff as [s|σ1 Hs|r0 s e0 He|r0 e0 He|r0 e0 He|r0 e0 He|r0 e0 l He Hl];
      simpl in *; try lia.
    + rewrite on_send_ok in Hs. cbv zeta in Hs. injection Hs as <-.
      simpl in IH. rewrite !length_app in IH. simpl in IH. lia.
    + apply list_remove_length in Hl. lia.
Qed.

(** X11: counting rows.  After page load and any session of user actions
    that ran to completion, the history holds two rows for the seeded
    messages plus two for every click on Send minus one for every click on
    Delete; typing, edit, save and cancel never change the count. *)
Theorem history_length (acts : list Action) (σ : App) :
  exec (STMainPage_init;; run acts) blank = Ok σ →
  length (msg_hist σ) + length (List.filter is_delete acts) =
  2 + 2 * length (List.filter is_send acts).
Proof.
  intros Hexec.
  apply exec_bind_inv in Hexec as ([] & σ0 & Hload & Hexec).
  pose proof (exec_ok _ _ _ _ Hload) as Hload'.
  rewrite STMainPage_init_ok in Hload'. injection Hload' as <-.
  by rewrite (run_length acts loaded σ well_formed_loaded Hexec).
Qed.

Lemma history_length_witness :
  let acts := [TypeInput "hi"; ClickSend; ClickEdit 2; ClickDelete 0;
               ClickSend; ClickDelete 3] in
  ∃ σ, exec (STMainPage_init;; run acts) blank = Ok σ ∧
       length (msg_hist σ) + length (List.filter is_delete acts) =
       2 + 2 * length (List.filter is_send acts).
Proof.
  intros acts. eexists. split; [vm_compute; reflexivity|].
  apply (history_length acts). vm_compute. reflexivity.
Defined.

(** ** What the page lets the user do *)

Lemma enabled_on_screen σ a : enabled σ a → on_screen σ a.
Proof.
  destruct a; unfold on_screen; simpl; try done; by intros [? _].
Qed.

Lemma usable_reachable σ : usable σ → reachable σ.
Proof.
  induction 1 as [σ Hload|σ a σ' _ IH Hen Hexec].
  - by apply reachable_load.
  - eapply reachable_step; [done| |done]. by apply enabled_on_screen.
Qed.

Lemma usable_in_sync σ :
  usable σ →
  ∀ r e, store σ !! r = Some e →
    disabled (text_box e) = true → value (text_box e) = saved_content e.
Proof.
  induction 1 as [σ Hload|σ a σ' Hus IH Hen Hexec].
  - rewrite STMainPage_init_ok in Hload. injection Hload as <-. simpl.
    intros r e [[_ <-]|[_ H]]%lookup_insert_Some; [done|].
    apply lookup_insert_Some in H as [[_ <-]|[_ H]]; [done|].
    by rewrite lookup_empty in H.
  - pose proof (reachable_well_formed _ (usable_reachable _ Hus)) as Hwf.
    pose proof (perform_effect σ a σ' Hwf Hexec) as Heff.
    destruct Heff as [s|σ' Hs|r0 s e0 He|r0 e0 He|r0 e0 He|r0 e0 He|r0 e0 l He Hl];
      simpl; try done.
    + rewrite on_send_ok in Hs. cbv zeta in Hs. injection Hs as <-. simpl.
      intros r e [[_ <-]|[_ H]]%lookup_insert_Some; [done|].
      apply lookup_insert_Some in H as [[_ <-]|[_ H]]; [done|]. by eapply IH.
    + destruct Hen as (_ & e1 & He1 & Hd). simplify_eq.
      intros r e [[_ <-]|[_ H]]%lookup_insert_Some; [|by eapply IH].
      simpl. intros Hdis. rewrite Hdis in Hd. done.
    + intros r e [[_ <-]|[_ H]]%lookup_insert_Some; [done|by eapply IH].
    + intros r e [[_ <-]|[_ H]]%lookup_insert_Some; [done|by eapply IH].
    + intros r e [[_ <-]|[_ H]]%lookup_insert_Some; [done|by eapply IH].
Qed.

(** X12: read-only entries show what is saved.  On every page the user can
    reach by typing into enabled text fields and clicking visible buttons,
    every entry whose text box is disabled displays exactly its saved
    content; displayed and saved text differ only while the entry is being
    edited. *)
Theorem disabled_text_box_shows_saved_content (σ : App) :
  usable σ →
  ∀ r e, store σ !! r = Some e →
    disabled (text_box e) = true →
    value (text_box e) = saved_content e ∧ Viewing e.
Proof.
  intros Hus r e He Hdis. split; [by eapply usable_in_sync|].
  pose proof (reachable_consistent σ (usable_reachable σ Hus) r e He) as Hc.
  by apply consistent_modes.
Qed.

Lemma disabled_text_box_shows_saved_content_witness :
  let e0 := MessageEntry_init "Setting" "Welcome to the Chat-Tinker GUI!"
              msg_hist_column 0 in
  let e := saved (with_text_box (set_value "Hello") (edited e0)) in
  value (text_box e) = saved_content e ∧ Viewing e.
Proof.
  intros e0 e.
  set (σ1 := with_focused (focus_text_box 0)
               (with_store (insert 0 (edited e0)) loaded)).
  set (σ2 := with_store
               (insert 0 (with_text_box (set_value "Hello") (edited e0))) σ1).
  set (σ3 := with_store (insert 0 e) σ2).
  assert (usable loaded) as H0 by (apply usable_load; vm_compute; reflexivity).
  assert (usable σ1) as H1.
  { apply (usable_step loaded (ClickEdit 0) σ1 H0).
    - split; [apply list_elem_of_here|]. eexists. split; vm_compute; reflexivity.
    - vm_compute. reflexivity. }
  assert (usable σ2) as H2.
  { apply (usable_step σ1 (TypeMessage 0 "Hello") σ2 H1).
    - split; [apply list_elem_of_here|]. eexists. split; vm_compute; reflexivity.
    - vm_compute. reflexivity. }
  assert (usable σ3) as H3.
  { apply (usable_step σ2 (ClickSave 0) σ3 H2).
    - split; [apply list_elem_of_here|]. eexists. split; vm_compute; reflexivity.
    - vm_compute. reflexivity. }
  apply (disabled_text_box_shows_saved_content σ3 H3 0 e).
  - vm_compute. reflexivity.
  - reflexivity.
Defined.

(** X13: a draft cannot be deleted by accident.  Whenever the page lets the
    user click Delete on an entry, that entry is in viewing mode and
    displays its saved content: while an entry is being edited its Delete
    button is hidden. *)
Theorem delete_only_offered_when_viewing (σ : App) (r : ref) :
  usable σ →
  enabled σ (ClickDelete r) →
  ∃ e, store σ !! r = Some e ∧ Viewing e ∧
       value (text_box e) = saved_content e.
Proof.
  intros Hus (_ & e & He & Hvis). exists e. split; [done|].
  pose proof (reachable_consistent σ (usable_reachable σ Hus) r e He) as Hc.
  assert (disabled (text_box e) = true) as Hdis.
  { destruct Hc as (-> & -> & _). exact Hvis. }
  split; [by apply consistent_modes|]. by eapply usable_in_sync.
Qed.

Lemma delete_only_offered_when_viewing_witness :
  ∃ e, store loaded !! 1 = Some e ∧ Viewing e ∧
       value (text_box e) = saved_content e.
Proof.
  apply (delete_only_offered_when_viewing loaded 1).
  - apply usable_load. vm_compute. reflexivity.
  - split; [apply list_elem_of_further, list_elem_of_here|].
    eexists. split; vm_compute; reflexivity.
Defined.
